(** * PyPomes-LDAP: a shallow embedding of [ldap_pomes.py]

    The module is a facade over the python-ldap client.  Every public
    function receives the caller's [errors] list, talks to the client
    library, and records failures as messages appended to that list.

    The embedding keeps that shape:
    - the client library is an arbitrary environment [lib] answering
      each library call with a value or a raised exception;
    - the caller's [errors] list and the environment's private world
      are threaded through a small state monad, which also writes the
      sequence of library calls that were issued;
    - the Python functions are transcribed statement by statement.

    The first part runs the module against a library whose exceptions
    all carry what [__ldap_except_msg] reads.  The module [Escaping]
    runs the bracket and the directory operations against a library
    that may raise any exception, where building the message can
    itself raise and the exception then leaves the operation. *)

From Stdlib Require Import ZArith List String Ascii Lia.
From Stdlib.Strings Require Import Byte.
From stdpp Require Import base option list strings gmap pretty.

Local Open Scope Z_scope.
Local Open Scope list_scope.

(** ** Python values *)

(** [bytes] objects. *)
Abbreviation bytes := (list byte).

#[global] Instance byte_eq_decision : EqDecision byte := byte_eq_dec.

(** The bytes literal [b"..."] of an ASCII text. *)
Definition bytes_lit (s : string) : bytes := list_byte_of_string s.

(** Python's truth-value protocol, for the types the module tests. *)
Class Truthy (A : Type) := truthy : A -> bool.

#[global] Instance truthy_list {A} : Truthy (list A) :=
  fun l => match l with [] => false | _ :: _ => true end.
#[global] Instance truthy_str : Truthy string :=
  fun s => match s with EmptyString => false | String _ _ => true end.
#[global] Instance truthy_int : Truthy Z :=
  fun z => negb (z =? 0).
#[global] Instance truthy_optional {A} `{Truthy A} : Truthy (option A) :=
  fun o => match o with None => false | Some a => truthy a end.

(** [x or d] where [d] is a plain value of the type. *)
Definition py_or {A} `{Truthy A} (x : option A) (d : A) : A :=
  match x with
  | Some a => if truthy a then a else d
  | None => d
  end.

(** [str.replace(old, new)] for one-character [old] and [new]. *)
Fixpoint str_replace_char (old new : ascii) (s : string) : string :=
  match s with
  | EmptyString => EmptyString
  | String c rest =>
      String (if Ascii.eqb c old then new else c) (str_replace_char old new rest)
  end.

(** [s[i:-j]] *)
Definition str_slice_from_to_end (i j : nat) (s : string) : string :=
  substring i (String.length s - j - i) s.

(** [s[:-1]] *)
Definition str_drop_last (s : string) : string :=
  substring 0 (String.length s - 1) s.

(** The f-string rendering of an optional value. *)
Definition fmt_opt {A} (show : A -> string) (o : option A) : string :=
  match o with
  | None => "None"
  | Some a => show a
  end.

(** ** Exceptions *)

(** [LDAPError] carries the qualified class name and the fields of the
    dictionary in [exc.args[0]] that the module reads.  The exceptions
    of this type are those a message can be built from; an [LDAPError]
    raised without that dictionary is the subject of the module
    [Escaping] further down. *)
Inductive exn : Type :=
| LDAPError (cls : string) (result : option Z) (desc info : option string)
| PyError (cls : string) (msg : string).

Definition AttributeError (attr : string) : exn :=
  PyError "AttributeError" ("'NoneType' object has no attribute '" +:+ attr +:+ "'").
Definition IndexError : exn :=
  PyError "IndexError" "list index out of range".

(** ** The client library *)

(** A text stream used as trace output. *)
Record TextIO : Type := mkTextIO { name : string; fileno : nat }.

Definition sys_stdout : TextIO := {| name := "<stdout>"; fileno := 1 |}.
Definition sys_stderr : TextIO := {| name := "<stderr>"; fileno := 2 |}.

(** The client object, with the two private attributes the module reads. *)
Record LDAPObject : Type := mkLDAPObject {
  _uri : string;
  _trace_file : TextIO;
  conn_id : nat
}.

(** The [trace_filepath] argument: [None], a [str] or a [Path]. *)
Inductive trace_dest : Type :=
| TraceNone
| TraceStr (s : string)
| TracePath (p : string).

Inductive ldap_option : Type :=
| OPT_PROTOCOL_VERSION
| OPT_REFERRALS
| OPT_TIMEOUT.

Inductive mod_op : Type :=
| MOD_ADD
| MOD_DELETE
| MOD_REPLACE.

#[global] Instance mod_op_eq_decision : EqDecision mod_op.
Proof. solve_decision. Defined.

Definition SCOPE_BASE : Z := 0.
Definition SCOPE_ONELEVEL : Z := 1.
Definition SCOPE_SUBTREE : Z := 2.

(** An attribute dictionary, a modification entry, a search hit. *)
Abbreviation attr_dict := (gmap string (list bytes)).
Abbreviation modification := (mod_op * string * option bytes)%type.
Abbreviation search_hit := (string * gmap string (list bytes))%type.

(** What [passwd_s] returns in second position when it is called with
    [extract_newpw=True]: the raw response value when that value is
    false ([None] or an empty [bytes]), and otherwise a
    [PasswordModifyResponse] object holding the generated password. *)
Inductive passwd_value : Type :=
| NoValue
| EmptyValue
| PasswordModifyResponse (genPasswd : bytes).

(** [resp[1].decode()]: of the three, only [bytes] has the method. *)
Definition resp_decode (v : passwd_value) : exn + string :=
  match v with
  | NoValue =>
      inl (PyError "AttributeError" "'NoneType' object has no attribute 'decode'")
  | EmptyValue => inr EmptyString
  | PasswordModifyResponse _ =>
      inl (PyError "AttributeError"
             "'PasswordModifyResponse' object has no attribute 'decode'")
  end.

(** The calls the module makes, indexed by the type of their result. *)
Inductive ldap_call : Type -> Type :=
| path_open (p : trace_dest) (mode : string) : ldap_call TextIO
| initialize (uri : option string) (trace_level : Z) (trace_file : TextIO)
    : ldap_call LDAPObject
| set_option (c : LDAPObject) (option : ldap_option) (invalue : Z) : ldap_call unit
| simple_bind_s (c : LDAPObject) (who cred : option string) : ldap_call unit
| unbind_s (c : LDAPObject) : ldap_call unit
| file_close (f : TextIO) : ldap_call unit
| add_s (c : LDAPObject) (dn : string) (modlist : list (string * list bytes))
    : ldap_call unit
| modify_s (c : LDAPObject) (dn : string) (modlist : list modification)
    : ldap_call unit
| delete_s (c : LDAPObject) (dn : string) : ldap_call unit
| search_s (c : LDAPObject) (base : string) (scope : Z) (filterstr : string)
    (attrlist : list string) (attrsonly : Z) : ldap_call (list search_hit)
| passwd_s (c : LDAPObject) (user : string) (oldpw : option string)
    (newpw : string) (extract_newpw : bool) : ldap_call (unit * passwd_value).

(** A call together with what the library answered. *)
Inductive event : Type :=
| Event {T : Type} (c : ldap_call T) (r : exn + T).

(** ** Observations on the trace of calls *)

Definition raised (e : event) : bool :=
  match e with
  | Event _ (inl _) => true
  | Event _ (inr _) => false
  end.

(** The calls that change the directory. *)
Definition is_write (e : event) : bool :=
  match e with
  | Event (add_s _ _ _) _ | Event (modify_s _ _ _) _
  | Event (delete_s _ _) _ | Event (passwd_s _ _ _ _ _) _ => true
  | Event _ _ => false
  end.

(** The calls of the action step of an operation. *)
Definition is_action (e : event) : bool :=
  match e with
  | Event (add_s _ _ _) _ | Event (modify_s _ _ _) _
  | Event (delete_s _ _) _ | Event (passwd_s _ _ _ _ _) _
  | Event (search_s _ _ _ _ _ _) _ => true
  | Event _ _ => false
  end.

Definition is_unbind (e : event) : bool :=
  match e with
  | Event (unbind_s _) _ => true
  | Event _ _ => false
  end.

Definition is_bind (e : event) : bool :=
  match e with
  | Event (simple_bind_s _ _ _) _ => true
  | Event _ _ => false
  end.

(** The client object a call yielded, if the call is [initialize] and
    it returned. *)
Definition handle_of (e : event) : option LDAPObject :=
  match e with
  | @Event T c r =>
      match c in ldap_call T0 return exn + T0 -> option LDAPObject with
      | initialize _ _ _ => fun r => match r with inr h => Some h | inl _ => None end
      | _ => fun _ => None
      end r
  end.

(** The hits a call yielded, if the call is [search_s] and it returned. *)
Definition hits_of (e : event) : option (list search_hit) :=
  match e with
  | @Event T c r =>
      match c in ldap_call T0 return exn + T0 -> option (list search_hit) with
      | search_s _ _ _ _ _ _ => fun r => match r with inr l => Some l | inl _ => None end
      | _ => fun _ => None
      end r
  end.

(** The credentials of a bind attempt. *)
Definition bind_args (e : event) : option (LDAPObject * option string * option string) :=
  match e with
  | Event (simple_bind_s c who cred) _ => Some (c, who, cred)
  | Event _ _ => None
  end.

(** The arguments of a search. *)
Definition search_args (e : event)
  : option (LDAPObject * string * Z * string * list string * Z) :=
  match e with
  | Event (search_s c base scope filterstr attrlist attrsonly) _ =>
      Some (c, base, scope, filterstr, attrlist, attrsonly)
  | Event _ _ => None
  end.

(** The arguments of a [modify_s]. *)
Definition modify_args (e : event) : option (LDAPObject * string * list modification) :=
  match e with
  | Event (modify_s c dn modlist) _ => Some (c, dn, modlist)
  | Event _ _ => None
  end.

(** The arguments of a [passwd_s]. *)
Definition passwd_args (e : event)
  : option (LDAPObject * string * option string * string * bool) :=
  match e with
  | Event (passwd_s c user oldpw newpw extract) _ => Some (c, user, oldpw, newpw, extract)
  | Event _ _ => None
  end.

(** ** The platform the module runs on *)

(** Everything the module takes from outside: the client library (an
    environment with a private world [W]), the configuration read from
    the process environment, and the functions of Python and of the
    libraries it imports. *)
Record platform (W : Type) : Type := mkPlatform {
  lib : forall T, ldap_call T -> W -> (exn + T) * W;
  (* env_get_str(f"{APP_PREFIX}_LDAP_BASE_DN") and the like *)
  env_LDAP_BASE_DN : option string;
  env_LDAP_BIND_DN : option string;
  env_LDAP_BIND_PWD : option string;
  env_LDAP_SERVER_URI : option string;
  env_LDAP_TIMEOUT : Z;
  env_LDAP_TRACE_FILEPATH : trace_dest;
  env_LDAP_TRACE_LEVEL : Z;
  (* pypomes_core.exc_format *)
  exc_format : exn -> string;
  (* ldap.modlist.addModlist *)
  addModlist : attr_dict -> list (string * list bytes);
  (* str.encode, which cannot raise on the strings of this model: they
     are sequences of 8-bit characters and hold no lone surrogate *)
  str_encode : string -> bytes
}.

Arguments lib {W} _ _ _ _.
Arguments env_LDAP_BASE_DN {W} _.
Arguments env_LDAP_BIND_DN {W} _.
Arguments env_LDAP_BIND_PWD {W} _.
Arguments env_LDAP_SERVER_URI {W} _.
Arguments env_LDAP_TIMEOUT {W} _.
Arguments env_LDAP_TRACE_FILEPATH {W} _.
Arguments env_LDAP_TRACE_LEVEL {W} _.
Arguments exc_format {W} _ _.
Arguments addModlist {W} _ _.
Arguments str_encode {W} _ _.

(** The state an operation runs in: the library's world and the
    caller's [errors] list. *)
Record state (W : Type) : Type := mkState {
  world : W;
  errors : list string
}.

Arguments mkState {W} _ _.
Arguments world {W} _.
Arguments errors {W} _.

(** A computation yields a value, the next state and the calls it made. *)
Definition M (W A : Type) : Type := state W -> A * state W * list event.

Definition ret {W A} (a : A) : M W A := fun s => (a, s, []).

Definition bind {W A B} (m : M W A) (k : A -> M W B) : M W B :=
  fun s =>
    let '(a, s1, t1) := m s in
    let '(r, s2, t2) := k a s1 in
    (r, s2, t1 ++ t2).

Notation "x <- m ;; k" := (bind m (fun x => k))
  (at level 100, m at next level, right associativity).
Notation "m ;; k" := (bind m (fun _ => k))
  (at level 100, right associativity).

(** The three projections of a run. *)
Definition result_of {W A} (r : A * state W * list event) : A := r.1.1.
Definition state_of {W A} (r : A * state W * list event) : state W := r.1.2.
Definition calls_of {W A} (r : A * state W * list event) : list event := r.2.

(** [errors.append(msg)] *)
Definition errors_append {W} (msg : string) : M W unit :=
  fun s => (tt, mkState (world s) (errors s ++ [msg]), []).

(** [not errors] *)
Definition not_errors {W} : M W bool :=
  fun s => (negb (truthy (errors s)), s, []).

(** A library call, inside a [try]: the exception, if any, is handed
    to the enclosing [except]. *)
Definition call {W T} (rt : platform W) (c : ldap_call T) : M W (exn + T) :=
  fun s =>
    let '(r, w) := lib rt T c (world s) in
    (r, mkState w (errors s), [Event c r]).

(** Sequencing inside a [try] block: the first exception ends the block. *)
Definition try_bind {W A B} (m : M W (exn + A)) (k : A -> M W (exn + B))
  : M W (exn + B) :=
  r <- m ;;
  match r with
  | inl e => ret (inl e)
  | inr a => k a
  end.

Notation "x <-? m ;; k" := (try_bind m (fun x => k))
  (at level 100, m at next level, right associativity).

(** ** The module *)

Section ldap_pomes.

Context {W : Type}.
Variable rt : platform W.

(** *** Module constants *)

Definition LDAP_BASE_DN : option string :=
  match env_LDAP_BASE_DN rt with
  | None => None
  | Some _val => Some (str_replace_char ":" "=" _val)
  end.
Definition LDAP_BIND_DN : option string :=
  match env_LDAP_BIND_DN rt with
  | None => None
  | Some _val => Some (str_replace_char ":" "=" _val)
  end.
Definition LDAP_BIND_PWD : option string := env_LDAP_BIND_PWD rt.
Definition LDAP_SERVER_URI : option string := env_LDAP_SERVER_URI rt.
Definition LDAP_TIMEOUT : Z := env_LDAP_TIMEOUT rt.
Definition LDAP_TRACE_FILEPATH : trace_dest := env_LDAP_TRACE_FILEPATH rt.
Definition LDAP_TRACE_LEVEL : Z := env_LDAP_TRACE_LEVEL rt.

(** *** Private helpers *)

Definition __is_secure (conn : LDAPObject) : bool :=
  String.prefix "ldaps:" (_uri conn).

(** [f"{type(exc)}"] is [<class 'qualified.name'>].  On the exceptions
    of [exn] the function returns; [Escaping.__ldap_except_msg] has the
    cases in which it raises. *)
Definition __ldap_except_msg (exc : exn) : string :=
  match exc with
  | LDAPError qualname code desc info =>
      let cls := str_slice_from_to_end 8 2 ("<class '" +:+ qualname +:+ "'>") in
      let result :=
        "'Type: " +:+ cls +:+ "; Code: " +:+ fmt_opt pretty code
          +:+ "; Msg: " +:+ fmt_opt id desc +:+ "'" in
      match info with
      | Some i =>
          if truthy i
          then str_drop_last result +:+ "; Info: " +:+ i +:+ "'"
          else result
      | None => result
      end
  | PyError _ _ => exc_format rt exc
  end.

(** A method call on a variable that may hold [None]. *)
Definition method {T} (obj : option LDAPObject) (attr : string)
    (f : LDAPObject -> ldap_call T) : M W (exn + T) :=
  match obj with
  | Some c => call rt (f c)
  | None => ret (inl (AttributeError attr))
  end.

(** The [except Exception as e] clause shared by all operations. *)
Definition except_append (prefix : string) (r : exn + unit) : M W unit :=
  match r with
  | inl e => errors_append (prefix +:+ __ldap_except_msg e)
  | inr _ => ret tt
  end.

(** *** ldap_init *)

Definition open_trace_out (trace_filepath : trace_dest) : M W (exn + TextIO) :=
  match trace_filepath with
  | TraceNone => ret (inr sys_stdout)
  | TraceStr s =>
      if decide (s = "sys.stdout") then ret (inr sys_stdout)
      else if decide (s = "sys.stderr") then ret (inr sys_stderr)
      else call rt (path_open trace_filepath "a")
  | TracePath _ => call rt (path_open trace_filepath "a")
  end.

(** [trace_level] is [None] when the argument is not an [int]. *)
Definition ldap_init (server_uri : option string) (trace_filepath : trace_dest)
    (trace_level : option Z) : M W (option LDAPObject) :=
  let failed (e : exn) (result : option LDAPObject) : M W (option LDAPObject) :=
    errors_append ("Error initializing the LDAP client: " +:+ __ldap_except_msg e) ;;
    ret result in
  r <- open_trace_out trace_filepath ;;
  match r with
  | inl e => failed e None
  | inr trace_out =>
      let trace_level := match trace_level with Some n => n | None => 0 end in
      r <- call rt (initialize server_uri trace_level trace_out) ;;
      match r with
      | inl e => failed e None
      | inr result =>
          r <- (_ <-? call rt (set_option result OPT_PROTOCOL_VERSION 3) ;;
                _ <-? call rt (set_option result OPT_REFERRALS 0) ;;
                call rt (set_option result OPT_TIMEOUT LDAP_TIMEOUT)) ;;
          match r with
          | inl e => failed e (Some result)
          | inr _ => ret (Some result)
          end
      end
  end.

(** [ldap_init(errors=errors)] with the default arguments. *)
Definition ldap_init_default : M W (option LDAPObject) :=
  ldap_init LDAP_SERVER_URI LDAP_TRACE_FILEPATH (Some LDAP_TRACE_LEVEL).

(** *** ldap_bind *)

Definition ldap_bind (ldap_client : LDAPObject) (bind_dn bind_pwd : option string)
  : M W bool :=
  r <- call rt (simple_bind_s ldap_client bind_dn bind_pwd) ;;
  match r with
  | inr _ => ret true
  | inl e =>
      errors_append ("Error binding with the LDAP server: " +:+ __ldap_except_msg e) ;;
      ret false
  end.

(** *** ldap_unbind *)

Definition ldap_unbind (ldap_client : LDAPObject) : M W unit :=
  r <- (_ <-? call rt (unbind_s ldap_client) ;;
        if bool_decide (name (_trace_file ldap_client) ∉ ["<stdout>"; "<stderr>"]%string)
        then call rt (file_close (_trace_file ldap_client))
        else ret (inr tt)) ;;
  except_append "Error unbinding with the LDAP server: " r.

(** The opening and closing steps every operation repeats: a client
    object is always true, [None] is false. *)
Definition bind_if_obtained (ldap_client : option LDAPObject) : M W bool :=
  match ldap_client with
  | Some c => ldap_bind c LDAP_BIND_DN LDAP_BIND_PWD
  | None => ret false
  end.

Definition unbind_if_bound (bound : bool) (ldap_client : option LDAPObject) : M W unit :=
  if bound then
    match ldap_client with
    | Some c => ldap_unbind c
    | None =>
        except_append "Error unbinding with the LDAP server: "
          (inl (AttributeError "unbind_s"))
    end
  else ret tt.

(** *** ldap_add_entry *)

Definition ldap_add_entry (entry_dn : string) (attrs : attr_dict) : M W unit :=
  ldap_client <- ldap_init_default ;;
  bound <- bind_if_obtained ldap_client ;;
  ok <- not_errors ;;
  (if ok then
     let ldiff := addModlist rt attrs in
     r <- method ldap_client "add_s" (fun c => add_s c entry_dn ldiff) ;;
     except_append "Error on the LDAP add entry operation: " r
   else ret tt) ;;
  unbind_if_bound bound ldap_client.

(** *** ldap_modify_entry *)

Definition ldap_modify_entry (entry_dn : string) (mod_entry : list modification)
  : M W unit :=
  conn <- ldap_init_default ;;
  bound <- bind_if_obtained conn ;;
  ok <- not_errors ;;
  (if ok then
     r <- method conn "modify_s" (fun c => modify_s c entry_dn mod_entry) ;;
     except_append "Error on the LDAP modify entry operation: " r
   else ret tt) ;;
  unbind_if_bound bound conn.

(** *** ldap_delete_entry *)

Definition ldap_delete_entry (entry_dn : string) : M W unit :=
  conn <- ldap_init_default ;;
  bound <- bind_if_obtained conn ;;
  ok <- not_errors ;;
  (if ok then
     r <- method conn "delete_s" (fun c => delete_s c entry_dn) ;;
     except_append "Error on the LDAP delete entry operation: " r
   else ret tt) ;;
  unbind_if_bound bound conn.

(** *** ldap_search *)

Definition ldap_search (base_dn : string) (attrs : list string)
    (scope : option Z) (filter_str : option string) (attrs_only : bool)
  : M W (option (list search_hit)) :=
  conn <- ldap_init_default ;;
  bound <- bind_if_obtained conn ;;
  ok <- not_errors ;;
  result <-
    (if ok then
       let attr_vals := if attrs_only then 1 else 0 in
       r <- method conn "search_s"
              (fun c => search_s c base_dn (py_or scope SCOPE_BASE)
                          (py_or filter_str "(objectClass=*)") attrs attr_vals) ;;
       match r with
       | inr found => ret (Some found)
       | inl e =>
           errors_append ("Error on the LDAP search operation: " +:+ __ldap_except_msg e) ;;
           ret None
       end
     else ret None) ;;
  unbind_if_bound bound conn ;;
  ret result.

(** *** ldap_modify_user *)

(** The loop building [mod_entries]; [entry_list[0]] raises on an
    empty list. *)
Fixpoint build_mod_entries (entry : attr_dict) (attrs : list (string * option bytes))
    (mod_entries : list modification) : exn + list modification :=
  match attrs with
  | [] => inr mod_entries
  | (attr_name, new_value) :: rest =>
      let entry_list := entry !! attr_name in
      if truthy new_value then
        match entry_list with
        | Some [] => inl IndexError
        | _ =>
            let curr_value :=
              match entry_list with
              | None => None
              | Some l => head l
              end in
            if bool_decide (new_value ≠ curr_value) then
              let mode :=
                match curr_value with
                | None => MOD_ADD
                | Some _ => MOD_REPLACE
                end in
              build_mod_entries entry rest (mod_entries ++ [(mode, attr_name, new_value)])
            else build_mod_entries entry rest mod_entries
        end
      else if truthy entry_list then
        build_mod_entries entry rest (mod_entries ++ [(MOD_DELETE, attr_name, None)])
      else build_mod_entries entry rest mod_entries
  end.

Definition user_not_found (user_id : string) : string :=
  "Error on the LDAP modify user operation: User '" +:+ user_id +:+ "' not found".

(** The search the function opens with. *)
Definition user_search (user_id : string) (attrs : list (string * option bytes))
  : M W (option (list search_hit)) :=
  ldap_search ("cn=users," +:+ fmt_opt id LDAP_BASE_DN)
    (map fst attrs) (Some SCOPE_ONELEVEL) (Some ("cn=" +:+ user_id)) false.

(** The result is [inl e] when the exception [e] leaves the function. *)
Definition ldap_modify_user (user_id : string) (attrs : list (string * option bytes))
  : M W (exn + unit) :=
  search_data <- user_search user_id attrs ;;
  (if negb (truthy search_data) then errors_append (user_not_found user_id)
   else ret tt) ;;
  ok <- not_errors ;;
  if ok then
    match search_data with
    | Some ((entry_dn, entry) :: _) =>
        match build_mod_entries entry attrs [] with
        | inl e => ret (inl e)
        | inr mod_entries =>
            if (0 <? length mod_entries)%nat then
              ldap_modify_entry entry_dn mod_entries ;;
              ret (inr tt)
            else ret (inr tt)
        end
    | Some [] => ret (inl IndexError)
    | None => ret (inl (PyError "TypeError" "'NoneType' object is not subscriptable"))
    end
  else ret (inr tt).

(** *** ldap_change_pwd *)

Definition ldap_change_pwd (user_dn new_pwd : string) (curr_pwd : option string)
  : M W (option string) :=
  ldap_client <- ldap_init_default ;;
  bound <-
    match ldap_client with
    | Some c =>
        if truthy curr_pwd then ldap_bind c (Some user_dn) curr_pwd
        else ldap_bind c LDAP_BIND_DN LDAP_BIND_PWD
    | None => ret false
    end ;;
  ok <- not_errors ;;
  result <-
    (if ok then
       r <- match ldap_client with
            | None => ret (inl (AttributeError "_uri"))
            | Some c =>
                if __is_secure c then
                  resp <-? call rt (passwd_s c user_dn curr_pwd new_pwd true) ;;
                  ret (resp_decode resp.2)
                else
                  _ <-? call rt (modify_s c user_dn
                                   [(MOD_REPLACE, "userpassword"%string,
                                     Some (str_encode rt new_pwd))]) ;;
                  ret (inr new_pwd)
            end ;;
       match r with
       | inr pwd => ret (Some pwd)
       | inl e =>
           errors_append ("Error on the LDAP password change operation: "
                            +:+ __ldap_except_msg e) ;;
           ret None
       end
     else ret None) ;;
  unbind_if_bound bound ldap_client ;;
  ret result.

(** *** ldap_get_value_list *)

Definition ldap_get_value_list (entry_dn attr : string) : M W (option (list bytes)) :=
  search_data <- ldap_search entry_dn [attr] None None false ;;
  match search_data with
  | Some ((_, user_data) :: _) => ret (user_data !! attr)
  | _ => ret None
  end.

(** *** ldap_get_value *)

Definition ldap_get_value (entry_dn attr : string) : M W (option bytes) :=
  data <- ldap_get_value_list entry_dn attr ;;
  match data with
  | Some (x :: _) => ret (Some x)
  | _ => ret None
  end.

(** *** ldap_add_value *)

Definition ldap_add_value (entry_dn attr : string) (value : bytes) : M W unit :=
  let mod_entries := [(MOD_ADD, attr, Some value)] in
  ldap_modify_entry entry_dn mod_entries.

(** *** ldap_set_value *)

Definition ldap_set_value (entry_dn attr : string) (value : option bytes) : M W unit :=
  curr_value <- ldap_get_value entry_dn attr ;;
  ok <- not_errors ;;
  if ok then
    let mode : option mod_op :=
      match curr_value with
      | None =>
          match value with
          | Some _ => Some MOD_ADD
          | None => None
          end
      | Some _ =>
          match value with
          | None => Some MOD_DELETE
          | Some _ =>
              if bool_decide (curr_value ≠ value) then Some MOD_REPLACE else None
          end
      end in
    match mode with
    | Some mode =>
        let mod_entries := [(mode, attr, value)] in
        ldap_modify_entry entry_dn mod_entries
    | None => ret tt
    end
  else ret tt.

(** *** ldap_get_values_lists *)

Definition ldap_get_values_lists (entry_dn : string) (attrs : list string)
  : M W (option (list (option (list bytes)))) :=
  search_data <- ldap_search entry_dn attrs None None false ;;
  match search_data with
  | Some ((_, user_data) :: _) =>
      let items := map (fun attr => user_data !! attr) attrs in
      ret (Some items)
  | _ => ret None
  end.

(** *** ldap_get_values *)

(** [[item if item is None else item[0] for item in search_data]];
    [item[0]] raises on an empty list. *)
Fixpoint first_items (search_data : list (option (list bytes)))
  : exn + list (option bytes) :=
  match search_data with
  | [] => inr []
  | item :: rest =>
      match item with
      | Some [] => inl IndexError
      | _ =>
          match first_items rest with
          | inl e => inl e
          | inr items => inr ((item ≫= head) :: items)
          end
      end
  end.

Definition ldap_get_values (entry_dn : string) (attrs : list string)
  : M W (exn + option (list (option bytes))) :=
  search_data <- ldap_get_values_lists entry_dn attrs ;;
  match search_data with
  | Some data =>
      match first_items data with
      | inl e => ret (inl e)
      | inr search_items => ret (inr (Some search_items))
      end
  | None => ret (inr None)
  end.

End ldap_pomes.

Arguments __ldap_except_msg {W} rt exc : simpl never.

(** ** Scripted platforms *)

(** A stateless client library following a fixed script: which client
    object [initialize] yields, whether binding and unbinding succeed,
    what a search finds and what the password extension answers. *)
Record script : Type := mkScript {
  sc_uri : string;
  sc_bind_ok : bool;
  sc_unbind_ok : bool;
  sc_found : list search_hit;
  sc_genpasswd : passwd_value
}.

Definition invalid_credentials : exn :=
  LDAPError "ldap.INVALID_CREDENTIALS" (Some 49) (Some "Invalid credentials"%string) None.
Definition server_down : exn :=
  LDAPError "ldap.SERVER_DOWN" (Some (-1)) (Some "Can't contact LDAP server"%string) None.

Definition scripted_lib (sc : script) (T : Type) (c : ldap_call T) (w : unit)
  : (exn + T) * unit :=
  (match c in ldap_call T0 return exn + T0 with
   | path_open _ _ => inr {| name := "ldap.log"; fileno := 3 |}
   | initialize _ _ trace_file =>
       inr {| _uri := sc_uri sc; _trace_file := trace_file; conn_id := 1 |}
   | set_option _ _ _ => inr tt
   | simple_bind_s _ _ _ => if sc_bind_ok sc then inr tt else inl invalid_credentials
   | unbind_s _ => if sc_unbind_ok sc then inr tt else inl server_down
   | file_close _ => inr tt
   | add_s _ _ _ => inr tt
   | modify_s _ _ _ => inr tt
   | delete_s _ _ => inr tt
   | search_s _ _ _ _ _ _ => inr (sc_found sc)
   | passwd_s _ _ _ _ _ => inr (tt, sc_genpasswd sc)
   end, w).

Definition scripted (sc : script) : platform unit := {|
  lib := scripted_lib sc;
  env_LDAP_BASE_DN := Some "dc:example,dc:com"%string;
  env_LDAP_BIND_DN := Some "cn:admin,dc:example,dc:com"%string;
  env_LDAP_BIND_PWD := Some "secret"%string;
  env_LDAP_SERVER_URI := Some (sc_uri sc);
  env_LDAP_TIMEOUT := 30;
  env_LDAP_TRACE_FILEPATH := TraceStr "sys.stderr";
  env_LDAP_TRACE_LEVEL := 0;
  exc_format := fun e =>
    match e with
    | PyError cls msg => cls +:+ ": " +:+ msg
    | LDAPError cls _ _ _ => cls
    end;
  addModlist := map_to_list;
  str_encode := list_byte_of_string
|}.

(** A plain server, found entries aside. *)
Definition plain_server (found : list search_hit) : script :=
  {| sc_uri := "ldap://ldap.example.com"; sc_bind_ok := true; sc_unbind_ok := true;
     sc_found := found; sc_genpasswd := NoValue |}.

(** The state of a caller with a fresh [errors] list. *)
Definition fresh : state unit := mkState tt [].

(** ** Further observations on traces *)

Definition is_init_call (e : event) : bool :=
  match e with
  | Event (path_open _ _) _ | Event (initialize _ _ _) _
  | Event (set_option _ _ _) _ => true
  | Event _ _ => false
  end.

(** The calls that precede the action step. *)
Definition is_setup (e : event) : bool := is_init_call e || is_bind e.

(** No call before the action step raised. *)
Definition setup_ok (t : list event) : bool :=
  forallb (fun e => negb (is_setup e && raised e)) t.

(** A bind that succeeded. *)
Definition bound_ok (e : event) : bool := is_bind e && negb (raised e).

(** An action call that raised. *)
Definition action_failed (e : event) : bool := is_action e && raised e.

(** The closing calls: [unbind_s] and the closing of the trace file. *)
Definition is_cleanup (e : event) : bool :=
  match e with
  | Event (unbind_s _) _ | Event (file_close _) _ => true
  | Event _ _ => false
  end.

(** The client object an [unbind_s] was invoked on. *)
Definition unbind_arg (e : event) : option LDAPObject :=
  match e with
  | Event (unbind_s c) _ => Some c
  | Event _ _ => None
  end.

(** The exception a call raised. *)
Definition raised_exn (e : event) : option exn :=
  match e with
  | Event _ (inl x) => Some x
  | Event _ (inr _) => None
  end.

(** The value a [passwd_s] call returned. *)
Definition passwd_reply (e : event) : option passwd_value :=
  match e with
  | @Event T c r =>
      match c in ldap_call T0 return exn + T0 -> option passwd_value with
      | passwd_s _ _ _ _ _ => fun r => match r with inr resp => Some resp.2 | inl _ => None end
      | _ => fun _ => None
      end r
  end.

(** The first entry the directory returned in a run. *)
Definition found_entry (t : list event) : option search_hit :=
  head (omap hits_of t) ≫= head.

(** The current values of an attribute, as the directory returned them,
    and the first of them. *)
Definition current_values (t : list event) (attr : string) : option (list bytes) :=
  found_entry t ≫= (fun hit => hit.2 !! attr).

Definition current_first_value (t : list event) (attr : string) : option bytes :=
  current_values t attr ≫= head.

(** The messages of failed closing calls. *)
Definition unbind_errors {W} (rt : platform W) (t : list event) : list string :=
  omap (fun e =>
          if is_cleanup e
          then (fun x => "Error unbinding with the LDAP server: " +:+ __ldap_except_msg rt x)
                 <$> raised_exn e
          else None) t.

(** ** The operations as data *)

(** The five directory operations. *)
Inductive directory_op : Type :=
| op_add (entry_dn : string) (attrs : attr_dict)
| op_modify (entry_dn : string) (mod_entry : list modification)
| op_delete (entry_dn : string)
| op_search (base_dn : string) (attrs : list string) (scope : option Z)
    (filter_str : option string) (attrs_only : bool)
| op_change_pwd (user_dn new_pwd : string) (curr_pwd : option string).

Definition run_directory_op {W} (rt : platform W) (op : directory_op) : M W unit :=
  match op with
  | op_add entry_dn attrs => ldap_add_entry rt entry_dn attrs
  | op_modify entry_dn mod_entry => ldap_modify_entry rt entry_dn mod_entry
  | op_delete entry_dn => ldap_delete_entry rt entry_dn
  | op_search base_dn attrs scope filter_str attrs_only =>
      ldap_search rt base_dn attrs scope filter_str attrs_only ;; ret tt
  | op_change_pwd user_dn new_pwd curr_pwd =>
      ldap_change_pwd rt user_dn new_pwd curr_pwd ;; ret tt
  end.

(** Every public function of the module, with its arguments. *)
Inductive public_op : Type :=
| pub_init (server_uri : option string) (trace_filepath : trace_dest)
    (trace_level : option Z)
| pub_bind (ldap_client : LDAPObject) (bind_dn bind_pwd : option string)
| pub_unbind (ldap_client : LDAPObject)
| pub_directory (op : directory_op)
| pub_modify_user (user_id : string) (attrs : list (string * option bytes))
| pub_get_value (entry_dn attr : string)
| pub_add_value (entry_dn attr : string) (value : bytes)
| pub_set_value (entry_dn attr : string) (value : option bytes)
| pub_get_value_list (entry_dn attr : string)
| pub_get_values (entry_dn : string) (attrs : list string)
| pub_get_values_lists (entry_dn : string) (attrs : list string).

Definition run_public {W} (rt : platform W) (op : public_op) : M W unit :=
  match op with
  | pub_init server_uri trace_filepath trace_level =>
      ldap_init rt server_uri trace_filepath trace_level ;; ret tt
  | pub_bind ldap_client bind_dn bind_pwd =>
      ldap_bind rt ldap_client bind_dn bind_pwd ;; ret tt
  | pub_unbind ldap_client => ldap_unbind rt ldap_client
  | pub_directory op => run_directory_op rt op
  | pub_modify_user user_id attrs => ldap_modify_user rt user_id attrs ;; ret tt
  | pub_get_value entry_dn attr => ldap_get_value rt entry_dn attr ;; ret tt
  | pub_add_value entry_dn attr value => ldap_add_value rt entry_dn attr value
  | pub_set_value entry_dn attr value => ldap_set_value rt entry_dn attr value
  | pub_get_value_list entry_dn attr => ldap_get_value_list rt entry_dn attr ;; ret tt
  | pub_get_values entry_dn attrs => ldap_get_values rt entry_dn attrs ;; ret tt
  | pub_get_values_lists entry_dn attrs =>
      ldap_get_values_lists rt entry_dn attrs ;; ret tt
  end.

(** The functions that open a connection of their own; the other three
    are the steps of the bracket themselves. *)
Definition opens_connection (op : public_op) : bool :=
  match op with
  | pub_init _ _ _ | pub_bind _ _ _ | pub_unbind _ => false
  | _ => true
  end.

(** The two functions that reconcile desired values with current ones. *)
Inductive reconcile_op : Type :=
| rec_modify_user (user_id : string) (attrs : list (string * option bytes))
| rec_set_value (entry_dn attr : string) (value : option bytes).

Definition run_reconcile {W} (rt : platform W) (op : reconcile_op) : M W unit :=
  match op with
  | rec_modify_user user_id attrs => ldap_modify_user rt user_id attrs ;; ret tt
  | rec_set_value entry_dn attr value => ldap_set_value rt entry_dn attr value
  end.

Definition desired (op : reconcile_op) : list (string * option bytes) :=
  match op with
  | rec_modify_user _ attrs => attrs
  | rec_set_value _ attr value => [(attr, value)]
  end.

Definition is_modify_user (op : reconcile_op) : bool :=
  match op with
  | rec_modify_user _ _ => true
  | rec_set_value _ _ _ => false
  end.

(** ** The reconciliation rule, in the words of the specification *)

(** One desired pair against the attribute's current first value, with
    "present" read as "not null". *)
Definition stated_rule (attr_name : string) (new_value current : option bytes)
  : option modification :=
  match new_value, current with
  | Some v, Some c =>
      if decide (v = c) then None else Some (MOD_REPLACE, attr_name, new_value)
  | Some v, None => Some (MOD_ADD, attr_name, new_value)
  | None, Some _ => Some (MOD_DELETE, attr_name, None)
  | None, None => None
  end.

(** The same rule with "present" read as "neither null nor empty": an
    empty new value counts as absent. *)
Definition reconcile_rule (attr_name : string) (new_value current : option bytes)
  : option modification :=
  match new_value with
  | Some (_ :: _) => stated_rule attr_name new_value current
  | _ => stated_rule attr_name None current
  end.

(** The credentials the specification names for the bind of a password
    change, with "supplied" read as "not null" and as "neither null nor
    empty". *)
Definition stated_bind_credentials {W} (rt : platform W) (user_dn : string)
    (curr_pwd : option string) : option string * option string :=
  match curr_pwd with
  | Some p => (Some user_dn, Some p)
  | None => (LDAP_BIND_DN rt, LDAP_BIND_PWD rt)
  end.

Definition bind_credentials {W} (rt : platform W) (user_dn : string)
    (curr_pwd : option string) : option string * option string :=
  match curr_pwd with
  | Some (String _ _ as p) => (Some user_dn, Some p)
  | _ => (LDAP_BIND_DN rt, LDAP_BIND_PWD rt)
  end.

(** ** Outcomes of opening the trace output *)

Inductive open_outcome {W} (d : trace_dest) (s : state W)
  : (exn + TextIO) * state W * list event -> Prop :=
| open_std f : open_outcome d s (inr f, s, [])
| open_file f w :
    open_outcome d s (inr f, mkState w (errors s), [Event (path_open d "a") (inr f)])
| open_fail e w :
    open_outcome d s (inl e, mkState w (errors s), [Event (path_open d "a") (inl e)]).

(** ** Observations for the single steps *)

(** The path and mode of an opening of the trace file, and the file it
    returned. *)
Definition open_args (e : event) : option (trace_dest * string) :=
  match e with
  | Event (path_open p mode) _ => Some (p, mode)
  | Event _ _ => None
  end.

Definition opened_file (e : event) : option TextIO :=
  match e with
  | @Event T c r =>
      match c in ldap_call T0 return exn + T0 -> option TextIO with
      | path_open _ _ => fun r => match r with inr f => Some f | inl _ => None end
      | _ => fun _ => None
      end r
  end.

(** The arguments of an [initialize], a [set_option], an [add_s] and a
    [delete_s]; the file a [close] was invoked on. *)
Definition init_args (e : event) : option (option string * Z * TextIO) :=
  match e with
  | Event (initialize uri trace_level trace_file) _ => Some (uri, trace_level, trace_file)
  | Event _ _ => None
  end.

Definition option_args (e : event) : option (LDAPObject * ldap_option * Z) :=
  match e with
  | Event (set_option c option invalue) _ => Some (c, option, invalue)
  | Event _ _ => None
  end.

Definition add_args (e : event)
  : option (LDAPObject * string * list (string * list bytes)) :=
  match e with
  | Event (add_s c dn modlist) _ => Some (c, dn, modlist)
  | Event _ _ => None
  end.

Definition delete_args (e : event) : option (LDAPObject * string) :=
  match e with
  | Event (delete_s c dn) _ => Some (c, dn)
  | Event _ _ => None
  end.

Definition close_arg (e : event) : option TextIO :=
  match e with
  | Event (file_close f) _ => Some f
  | Event _ _ => None
  end.

(** The client object an action call was invoked on. *)
Definition action_handle (e : event) : option LDAPObject :=
  match e with
  | Event (add_s c _ _) _ | Event (modify_s c _ _) _ | Event (delete_s c _) _
  | Event (passwd_s c _ _ _ _) _ | Event (search_s c _ _ _ _ _) _ => Some c
  | Event _ _ => None
  end.

(** The message an [except] clause with the given prefix records for a
    call that raised. *)
Definition reported {W} (rt : platform W) (prefix : string) (e : event) : option string :=
  (fun x => prefix +:+ __ldap_except_msg rt x) <$> raised_exn e.

(** The standard stream a [trace_filepath] argument names, if any. *)
Definition std_stream (d : trace_dest) : option TextIO :=
  match d with
  | TraceNone => Some sys_stdout
  | TraceStr s =>
      if decide (s = "sys.stdout"%string) then Some sys_stdout
      else if decide (s = "sys.stderr"%string) then Some sys_stderr
      else None
  | TracePath _ => None
  end.

(** The three [set_option] calls that configure a client object. *)
Definition configuration {W} (rt : platform W) (c : LDAPObject)
  : list (LDAPObject * ldap_option * Z) :=
  [(c, OPT_PROTOCOL_VERSION, 3); (c, OPT_REFERRALS, 0); (c, OPT_TIMEOUT, LDAP_TIMEOUT rt)].

(** The shape of a bracket: setup calls, then at most one action call,
    then closing calls. *)
Fixpoint after_setup (t : list event) : list event :=
  match t with
  | e :: rest => if is_setup e then after_setup rest else t
  | [] => []
  end.

Definition bracket_shape (t : list event) : bool :=
  match after_setup t with
  | e :: rest => if is_action e then forallb is_cleanup rest else forallb is_cleanup (e :: rest)
  | [] => true
  end.

Definition changes_password (op : directory_op) : bool :=
  match op with
  | op_change_pwd _ _ _ => true
  | _ => false
  end.

(** ** Frames *)

(** The list holding an optional value. *)
Definition option_list {A} (o : option A) : list A :=
  match o with
  | Some a => [a]
  | None => []
  end.

(** A run from [s] to [s'] with calls [t] keeps the frame of the error
    list: the list is only appended to, and from a non-empty list no
    action call is made while the connection is still initialized and
    each client object bound. *)
Definition framed {W} (s s' : state W) (t : list event) : Prop :=
  (exists suffix, errors s' = errors s ++ suffix) /\
  (errors s <> [] ->
     List.filter is_action t = [] /\
     (exists e t', t = e :: t' /\ is_init_call e = true) /\
     Forall (fun h => h ∈ (omap bind_args t).*1.*1) (omap handle_of t)).

(** * Exceptions from which no message can be built

    The operations above are run against a library whose exceptions
    are all of the kind a message can be built from: any exception
    that is not an [LDAPError], and an [LDAPError] whose first argument
    is its dictionary.  [__ldap_except_msg] itself raises on the others:
    [exc.args[0]] on an [LDAPError] without arguments, [err_data.get]
    on a first argument that is not a dictionary.  That exception is
    raised inside the [except] clause and leaves the operation.  The
    module below runs the bracket and the five directory operations
    against a library that may raise any exception. *)

Module Escaping.

(** What [exc.args] of an [LDAPError] holds: a dictionary in first
    position, of which the module reads three keys; nothing; or a first
    argument that is not a dictionary. *)
Inductive error_args : Type :=
| ArgsDict (result : option Z) (desc info : option string)
| ArgsEmpty
| ArgsOther.

(** An exception: an [LDAPError] of some class, or any other. *)
Inductive exc : Type :=
| LDAPExc (qualname : string) (args : error_args)
| OtherExc (cls msg : string).

(** The exceptions of the first part, among all. *)
Definition of_exn (e : exn) : exc :=
  match e with
  | LDAPError qualname result desc info => LDAPExc qualname (ArgsDict result desc info)
  | PyError cls msg => OtherExc cls msg
  end.

(** An exception a message can be built from. *)
Definition reportable (x : exc) : bool :=
  match x with
  | LDAPExc _ ArgsEmpty | LDAPExc _ ArgsOther => false
  | LDAPExc _ (ArgsDict _ _ _) | OtherExc _ _ => true
  end.

(** A call together with what the library answered. *)
Inductive any_event : Type :=
| Called {T : Type} (c : ldap_call T) (r : exc + T).

(** *** Observations *)

Definition raised_exc (e : any_event) : option exc :=
  match e with
  | Called _ (inl x) => Some x
  | Called _ (inr _) => None
  end.

Definition raised (e : any_event) : bool :=
  match raised_exc e with Some _ => true | None => false end.

(** A call that raised an exception no message can be built from. *)
Definition escaping (e : any_event) : bool :=
  match raised_exc e with Some x => negb (reportable x) | None => false end.

(** A call that raised an exception that can be reported. *)
Definition failed (e : any_event) : bool :=
  match raised_exc e with Some x => reportable x | None => false end.

Definition all_reportable (t : list any_event) : bool :=
  forallb (fun e => negb (escaping e)) t.

Definition is_bind (e : any_event) : bool :=
  match e with
  | Called (simple_bind_s _ _ _) _ => true
  | Called _ _ => false
  end.

Definition bound_ok (e : any_event) : bool := is_bind e && negb (raised e).

Definition is_unbind (e : any_event) : bool :=
  match e with
  | Called (unbind_s _) _ => true
  | Called _ _ => false
  end.

Definition is_cleanup (e : any_event) : bool :=
  match e with
  | Called (unbind_s _) _ | Called (file_close _) _ => true
  | Called _ _ => false
  end.

Definition is_action (e : any_event) : bool :=
  match e with
  | Called (add_s _ _ _) _ | Called (modify_s _ _ _) _
  | Called (delete_s _ _) _ | Called (passwd_s _ _ _ _ _) _
  | Called (search_s _ _ _ _ _ _) _ => true
  | Called _ _ => false
  end.

Definition handle_of (e : any_event) : option LDAPObject :=
  match e with
  | @Called T c r =>
      match c in ldap_call T0 return exc + T0 -> option LDAPObject with
      | initialize _ _ _ => fun r => match r with inr h => Some h | inl _ => None end
      | _ => fun _ => None
      end r
  end.

Definition bind_args (e : any_event)
  : option (LDAPObject * option string * option string) :=
  match e with
  | Called (simple_bind_s c who cred) _ => Some (c, who, cred)
  | Called _ _ => None
  end.

Definition unbind_arg (e : any_event) : option LDAPObject :=
  match e with
  | Called (unbind_s c) _ => Some c
  | Called _ _ => None
  end.

Definition close_arg (e : any_event) : option TextIO :=
  match e with
  | Called (file_close f) _ => Some f
  | Called _ _ => None
  end.

Definition option_args (e : any_event) : option (LDAPObject * ldap_option * Z) :=
  match e with
  | Called (set_option c option invalue) _ => Some (c, option, invalue)
  | Called _ _ => None
  end.

(** *** Computations that an exception may leave *)

Definition M (W A : Type) : Type := state W -> (exn + A) * state W * list any_event.

Definition ret {W A} (a : A) : M W A := fun s => (inr a, s, []).

Definition raise {W A} (e : exn) : M W A := fun s => (inl e, s, []).

Definition bind {W A B} (m : M W A) (k : A -> M W B) : M W B :=
  fun s =>
    let '(a, s1, t1) := m s in
    match a with
    | inl e => (inl e, s1, t1)
    | inr a =>
        let '(r, s2, t2) := k a s1 in
        (r, s2, t1 ++ t2)
    end.

Declare Scope escaping_scope.
Notation "x <- m ;; k" := (bind m (fun x => k))
  (at level 100, m at next level, right associativity) : escaping_scope.
Notation "m ;; k" := (bind m (fun _ => k))
  (at level 100, right associativity) : escaping_scope.
Local Open Scope escaping_scope.

Definition result_of {W A} (r : (exn + A) * state W * list any_event) : exn + A := r.1.1.
Definition state_of {W A} (r : (exn + A) * state W * list any_event) : state W := r.1.2.
Definition calls_of {W A} (r : (exn + A) * state W * list any_event) : list any_event := r.2.

Definition errors_append {W} (msg : string) : M W unit :=
  fun s => (inr tt, mkState (world s) (errors s ++ [msg]), []).

Definition not_errors {W} : M W bool :=
  fun s => (inr (negb (truthy (errors s))), s, []).

(** Sequencing inside a [try] block, as in the first part. *)
Definition try_bind {W A B} (m : M W (exc + A)) (k : A -> M W (exc + B))
  : M W (exc + B) :=
  r <- m ;;
  match r with
  | inl x => ret (inl x)
  | inr a => k a
  end.

Notation "x <-? m ;; k" := (try_bind m (fun x => k))
  (at level 100, m at next level, right associativity) : escaping_scope.

Section ldap_pomes.

Context {W : Type}.
(** The configuration and the helper functions. *)
Variable rt : platform W.
(** The client library, raising what it may. *)
Variable lib_any : forall T, ldap_call T -> W -> (exc + T) * W.

Definition call {T} (c : ldap_call T) : M W (exc + T) :=
  fun s =>
    let '(r, w) := lib_any T c (world s) in
    (inr r, mkState w (errors s), [Called c r]).

(** [exc.args[0]] raises on empty arguments and [err_data.get] on a
    value without the method, before any text is built; the text for a
    dictionary is the one of the first part. *)
Definition __ldap_except_msg (x : exc) : exn + string :=
  match x with
  | LDAPExc qualname args =>
      match args with
      | ArgsEmpty => inl (PyError "IndexError" "tuple index out of range")
      | ArgsOther => inl (PyError "AttributeError" "object has no attribute 'get'")
      | ArgsDict result desc info =>
          inr (__ldap_except_msg rt (LDAPError qualname result desc info))
      end
  | OtherExc cls msg => inr (exc_format rt (PyError cls msg))
  end.

(** The [except Exception as e] clause: the message is built first. *)
Definition except_append (prefix : string) (x : exc) : M W unit :=
  match __ldap_except_msg x with
  | inl e => raise e
  | inr msg => errors_append (prefix +:+ msg)
  end.

Definition except_unit (prefix : string) (r : exc + unit) : M W unit :=
  match r with
  | inl x => except_append prefix x
  | inr _ => ret tt
  end.

Definition method {T} (obj : option LDAPObject) (attr : string)
    (f : LDAPObject -> ldap_call T) : M W (exc + T) :=
  match obj with
  | Some c => call (f c)
  | None => ret (inl (of_exn (AttributeError attr)))
  end.

Definition open_trace_out (trace_filepath : trace_dest) : M W (exc + TextIO) :=
  match trace_filepath with
  | TraceNone => ret (inr sys_stdout)
  | TraceStr s =>
      if decide (s = "sys.stdout"%string) then ret (inr sys_stdout)
      else if decide (s = "sys.stderr"%string) then ret (inr sys_stderr)
      else call (path_open trace_filepath "a")
  | TracePath _ => call (path_open trace_filepath "a")
  end.

Definition ldap_init (server_uri : option string) (trace_filepath : trace_dest)
    (trace_level : option Z) : M W (option LDAPObject) :=
  let failed (x : exc) (result : option LDAPObject) : M W (option LDAPObject) :=
    except_append "Error initializing the LDAP client: " x ;;
    ret result in
  r <- open_trace_out trace_filepath ;;
  match r with
  | inl x => failed x None
  | inr trace_out =>
      let trace_level := match trace_level with Some n => n | None => 0 end in
      r <- call (initialize server_uri trace_level trace_out) ;;
      match r with
      | inl x => failed x None
      | inr result =>
          r <- (_ <-? call (set_option result OPT_PROTOCOL_VERSION 3) ;;
                _ <-? call (set_option result OPT_REFERRALS 0) ;;
                call (set_option result OPT_TIMEOUT (LDAP_TIMEOUT rt))) ;;
          match r with
          | inl x => failed x (Some result)
          | inr _ => ret (Some result)
          end
      end
  end.

Definition ldap_init_default : M W (option LDAPObject) :=
  ldap_init (LDAP_SERVER_URI rt) (LDAP_TRACE_FILEPATH rt) (Some (LDAP_TRACE_LEVEL rt)).

Definition ldap_bind (ldap_client : LDAPObject) (bind_dn bind_pwd : option string)
  : M W bool :=
  r <- call (simple_bind_s ldap_client bind_dn bind_pwd) ;;
  match r with
  | inr _ => ret true
  | inl x =>
      except_append "Error binding with the LDAP server: " x ;;
      ret false
  end.

Definition ldap_unbind (ldap_client : LDAPObject) : M W unit :=
  r <- (_ <-? call (unbind_s ldap_client) ;;
        if bool_decide (name (_trace_file ldap_client) ∉ ["<stdout>"; "<stderr>"]%string)
        then call (file_close (_trace_file ldap_client))
        else ret (inr tt)) ;;
  except_unit "Error unbinding with the LDAP server: " r.

Definition bind_if_obtained (ldap_client : option LDAPObject) : M W bool :=
  match ldap_client with
  | Some c => ldap_bind c (LDAP_BIND_DN rt) (LDAP_BIND_PWD rt)
  | None => ret false
  end.

Definition unbind_if_bound (bound : bool) (ldap_client : option LDAPObject) : M W unit :=
  if bound then
    match ldap_client with
    | Some c => ldap_unbind c
    | None =>
        except_unit "Error unbinding with the LDAP server: "
          (inl (of_exn (AttributeError "unbind_s")))
    end
  else ret tt.

Definition ldap_add_entry (entry_dn : string) (attrs : attr_dict) : M W unit :=
  ldap_client <- ldap_init_default ;;
  bound <- bind_if_obtained ldap_client ;;
  ok <- not_errors ;;
  (if ok then
     let ldiff := addModlist rt attrs in
     r <- method ldap_client "add_s" (fun c => add_s c entry_dn ldiff) ;;
     except_unit "Error on the LDAP add entry operation: " r
   else ret tt) ;;
  unbind_if_bound bound ldap_client.

Definition ldap_modify_entry (entry_dn : string) (mod_entry : list modification)
  : M W unit :=
  conn <- ldap_init_default ;;
  bound <- bind_if_obtained conn ;;
  ok <- not_errors ;;
  (if ok then
     r <- method conn "modify_s" (fun c => modify_s c entry_dn mod_entry) ;;
     except_unit "Error on the LDAP modify entry operation: " r
   else ret tt) ;;
  unbind_if_bound bound conn.

Definition ldap_delete_entry (entry_dn : string) : M W unit :=
  conn <- ldap_init_default ;;
  bound <- bind_if_obtained conn ;;
  ok <- not_errors ;;
  (if ok then
     r <- method conn "delete_s" (fun c => delete_s c entry_dn) ;;
     except_unit "Error on the LDAP delete entry operation: " r
   else ret tt) ;;
  unbind_if_bound bound conn.

Definition ldap_search (base_dn : string) (attrs : list string)
    (scope : option Z) (filter_str : option string) (attrs_only : bool)
  : M W (option (list search_hit)) :=
  conn <- ldap_init_default ;;
  bound <- bind_if_obtained conn ;;
  ok <- not_errors ;;
  result <-
    (if ok then
       let attr_vals := if attrs_only then 1 else 0 in
       r <- method conn "search_s"
              (fun c => search_s c base_dn (py_or scope SCOPE_BASE)
                          (py_or filter_str "(objectClass=*)"%string) attrs attr_vals) ;;
       match r with
       | inr found => ret (Some found)
       | inl x =>
           except_append "Error on the LDAP search operation: " x ;;
           ret None
       end
     else ret None) ;;
  unbind_if_bound bound conn ;;
  ret result.

Definition ldap_change_pwd (user_dn new_pwd : string) (curr_pwd : option string)
  : M W (option string) :=
  ldap_client <- ldap_init_default ;;
  bound <-
    match ldap_client with
    | Some c =>
        if truthy curr_pwd then ldap_bind c (Some user_dn) curr_pwd
        else ldap_bind c (LDAP_BIND_DN rt) (LDAP_BIND_PWD rt)
    | None => ret false
    end ;;
  ok <- not_errors ;;
  result <-
    (if ok then
       r <- match ldap_client with
            | None => ret (inl (of_exn (AttributeError "_uri")))
            | Some c =>
                if __is_secure c then
                  resp <-? call (passwd_s c user_dn curr_pwd new_pwd true) ;;
                  ret (match resp_decode resp.2 with
                       | inl e => inl (of_exn e)
                       | inr decoded => inr decoded
                       end)
                else
                  _ <-? call (modify_s c user_dn
                                [(MOD_REPLACE, "userpassword"%string,
                                  Some (str_encode rt new_pwd))]) ;;
                  ret (inr new_pwd)
            end ;;
       match r with
       | inr pwd => ret (Some pwd)
       | inl x =>
           except_append "Error on the LDAP password change operation: " x ;;
           ret None
       end
     else ret None) ;;
  unbind_if_bound bound ldap_client ;;
  ret result.

Definition run_directory_op (op : directory_op) : M W unit :=
  match op with
  | op_add entry_dn attrs => ldap_add_entry entry_dn attrs
  | op_modify entry_dn mod_entry => ldap_modify_entry entry_dn mod_entry
  | op_delete entry_dn => ldap_delete_entry entry_dn
  | op_search base_dn attrs scope filter_str attrs_only =>
      ldap_search base_dn attrs scope filter_str attrs_only ;; ret tt
  | op_change_pwd user_dn new_pwd curr_pwd =>
      ldap_change_pwd user_dn new_pwd curr_pwd ;; ret tt
  end.

(** The exception that leaves the [except] clause for a call, and the
    message the clause appends otherwise. *)
Definition escape_of (e : any_event) : option exn :=
  match raised_exc e with
  | Some x => match __ldap_except_msg x with inl e => Some e | inr _ => None end
  | None => None
  end.

Definition reported (prefix : string) (e : any_event) : option string :=
  match raised_exc e with
  | Some x =>
      match __ldap_except_msg x with
      | inl _ => None
      | inr msg => Some (prefix +:+ msg)
      end
  | None => None
  end.

End ldap_pomes.

Arguments __ldap_except_msg {W} rt x : simpl never.

(** The three ways the opening of the trace output can go. *)
Inductive open_outcome {W} (d : trace_dest) (s : state W)
  : (exn + (exc + TextIO)) * state W * list any_event -> Prop :=
| open_std f : open_outcome d s (inr (inr f), s, [])
| open_file f w :
    open_outcome d s
      (inr (inr f), mkState w (errors s), [Called (path_open d "a") (inr f)])
| open_fail x w :
    open_outcome d s
      (inr (inl x), mkState w (errors s), [Called (path_open d "a") (inl x)]).

(** *** A scripted library

    A stateless client library whose binding, action step and
    unbinding raise the exception the script gives, if any. *)
Record script : Type := mkScript {
  sc_bind : option exc;
  sc_action : option exc;
  sc_unbind : option exc
}.

Definition answer {T} (x : option exc) (v : T) : exc + T :=
  match x with
  | Some x => inl x
  | None => inr v
  end.

Definition scripted_lib (sc : script) (T : Type) (c : ldap_call T) (w : unit)
  : (exc + T) * unit :=
  (match c in ldap_call T0 return exc + T0 with
   | path_open _ _ => inr {| name := "ldap.log"; fileno := 3 |}
   | initialize _ _ trace_file =>
       inr {| _uri := "ldap://ldap.example.com"; _trace_file := trace_file; conn_id := 1 |}
   | set_option _ _ _ => inr tt
   | simple_bind_s _ _ _ => answer (sc_bind sc) tt
   | unbind_s _ => answer (sc_unbind sc) tt
   | file_close _ => inr tt
   | add_s _ _ _ => answer (sc_action sc) tt
   | modify_s _ _ _ => answer (sc_action sc) tt
   | delete_s _ _ => answer (sc_action sc) tt
   | search_s _ _ _ _ _ _ => answer (sc_action sc) []
   | passwd_s _ _ _ _ _ => answer (sc_action sc) (tt, NoValue)
   end, w).

(** A [TIMEOUT] raised without arguments, and one with its dictionary. *)
Definition bare_timeout : exc := LDAPExc "ldap.TIMEOUT" ArgsEmpty.
Definition timeout : exc :=
  LDAPExc "ldap.TIMEOUT" (ArgsDict (Some (-5)) (Some "Timed out"%string) None).

End Escaping.

(** ** Symbolic execution of one bracket *)

#[local] Arguments String.append _ _ : simpl never.

Section Brackets.

Context {W : Type}.
Variable rt : platform W.

Lemma open_trace_out_outcome d s : open_outcome d s (open_trace_out rt d s).
Proof.
  unfold open_trace_out, call, ret.
  destruct d as [|str|p]; try constructor.
  - repeat case_decide; try constructor;
      destruct (lib rt _ _ _) as [[e|f] w]; constructor.
  - destruct (lib rt _ _ _) as [[e|f] w]; constructor.
Qed.

Ltac run_open H :=
  match type of H with
  | context [open_trace_out ?p ?d ?s] =>
      let Ho := fresh "Hopen" in
      pose proof (open_trace_out_outcome d s) as Ho;
      destruct (open_trace_out p d s) as [[? ?] ?];
      inversion Ho; subst; clear Ho
  end.

Ltac run_lib H :=
  match type of H with
  | context [lib ?p ?T ?c ?w] =>
      destruct (lib p T c w) as [[?exc|?val] ?w]
  end.

Ltac unfold_ops H :=
  cbv beta iota zeta delta
    [run_directory_op
     ldap_search ldap_add_entry ldap_modify_entry ldap_delete_entry ldap_change_pwd
     ldap_init_default ldap_init ldap_bind ldap_unbind bind_if_obtained unbind_if_bound
     method except_append try_bind bind ret call errors_append not_errors
     result_of state_of calls_of world errors fst snd negb resp_decode
     truthy truthy_list truthy_optional truthy_str] in H;
  cbn [app] in H.

Ltac run_pure H :=
  first
    [ match goal with
      | v : (unit * passwd_value)%type |- _ => destruct v as [[] [| |?genPasswd]]
      end
    | match type of H with
      | context [__is_secure ?c] => destruct (__is_secure c) eqn:?
      | context [bool_decide ?P] => destruct (bool_decide P) eqn:?
      end ].

Ltac run H :=
  unfold_ops H;
  repeat (first [run_open H | run_lib H | run_pure H]; unfold_ops H);
  simplify_eq H; intros; subst; clear H.

Ltac close :=
  cbn; repeat split;
  first
    [ reflexivity
    | lia
    | intros; congruence
    | exists []; rewrite app_nil_r; reflexivity
    | eexists; rewrite <- ?app_assoc; reflexivity
    | do 2 eexists; split; reflexivity
    | solve [repeat constructor] ].

(** What every directory operation does around its action step. *)
Lemma directory_run op s u s' t :
  run_directory_op rt op s = (u, s', t) ->
  (exists suffix, errors s' = errors s ++ suffix) /\
  (errors s <> [] -> List.filter is_action t = []) /\
  (exists e t', t = e :: t' /\ is_init_call e = true) /\
  Forall (fun h => h ∈ (omap bind_args t).*1.*1) (omap handle_of t) /\
  omap unbind_arg t = (if existsb bound_ok t then omap handle_of t else []) /\
  (length (omap handle_of t) <= 1)%nat /\
  (length (List.filter is_bind t) <= length (omap handle_of t))%nat /\
  (length (List.filter is_cleanup t) <= 2 * length (omap unbind_arg t))%nat /\
  (length (List.filter is_write t) <= 1)%nat.
Proof.
  intros Hrun. destruct s as [w errs].
  destruct op; destruct errs as [|msg errs];
    try destruct curr_pwd as [[|? ?]|].
  all: run Hrun.
  all: close.
Qed.

(** What a search does. *)
Lemma search_run base_dn attrs scope filter_str attrs_only s res s' t :
  ldap_search rt base_dn attrs scope filter_str attrs_only s = (res, s', t) ->
  omap hits_of t = option_list res /\
  List.filter is_write t = [] /\
  omap modify_args t = [] /\
  (errors s <> [] -> res = None) /\
  (errors s = [] -> setup_ok t = true ->
     exists c, omap search_args t =
       [(c, base_dn, py_or scope SCOPE_BASE, py_or filter_str "(objectClass=*)"%string,
         attrs, if attrs_only then 1 else 0)]) /\
  Forall (fun x => x.1.1.1.1.2 = base_dn /\ x.1.1.1.2 = py_or scope SCOPE_BASE /\
                   x.1.1.2 = py_or filter_str "(objectClass=*)"%string /\
                   x.1.2 = attrs)
    (omap search_args t) /\
  (res <> None -> errors s = [] /\ errors s' = unbind_errors rt t).
Proof.
  intros Hrun. destruct s as [w errs].
  destruct errs as [|msg errs].
  all: run Hrun.
  all: close.
Qed.

(** What a modification does. *)
Lemma modify_entry_run entry_dn mod_entry s u s' t :
  ldap_modify_entry rt entry_dn mod_entry s = (u, s', t) ->
  omap hits_of t = [] /\
  Forall (fun x => x.1.2 = entry_dn /\ x.2 = mod_entry) (omap modify_args t) /\
  length (omap modify_args t) = length (List.filter is_write t) /\
  (errors s = [] -> setup_ok t = true ->
     exists c, omap modify_args t = [(c, entry_dn, mod_entry)]).
Proof.
  intros Hrun. destruct s as [w errs].
  destruct errs as [|msg errs].
  all: run Hrun.
  all: close.
Qed.

(** What a password change does. *)
Lemma change_pwd_run user_dn new_pwd curr_pwd s res s' t :
  ldap_change_pwd rt user_dn new_pwd curr_pwd s = (res, s', t) ->
  omap bind_args t =
    map (fun c => (c, (bind_credentials rt user_dn curr_pwd).1,
                      (bind_credentials rt user_dn curr_pwd).2))
      (omap handle_of t) /\
  (errors s = [] -> setup_ok t = true ->
     exists c, omap handle_of t = [c] /\
       if __is_secure c then
         omap passwd_args t = [(c, user_dn, curr_pwd, new_pwd, true)] /\
         omap modify_args t = [] /\
         res = head (omap passwd_reply t) ≫=
                 (fun v => match v with
                           | EmptyValue => Some EmptyString
                           | NoValue | PasswordModifyResponse _ => None
                           end) /\
         (forall pwd, PasswordModifyResponse pwd ∈ omap passwd_reply t ->
            res = None /\ exists msg, msg ∈ errors s')
       else
         omap modify_args t =
           [(c, user_dn, [(MOD_REPLACE, "userpassword"%string,
                           Some (str_encode rt new_pwd))])] /\
         omap passwd_args t = [] /\
         res = if existsb action_failed t then None else Some new_pwd).
Proof.
  intros Hrun. destruct s as [w errs].
  destruct errs as [|msg errs]; destruct curr_pwd as [[|? ?]|].
  all: run Hrun.
  all: (cbn; split; [reflexivity|]; try (intros; congruence)).
  all: intros _ _; eexists; (split; [reflexivity|]).
  all: match goal with H : __is_secure _ = _ |- _ => rewrite H end.
  all: cbn; repeat split.
  all: try match goal with
           | H : _ ∈ [] |- _ => apply elem_of_nil in H; contradiction
           | H : _ ∈ [_] |- _ => apply list_elem_of_singleton in H; try discriminate H
           end.
  all: eexists; left.
Qed.

(** The three steps of the bracket, called on their own, only append
    to the error list. *)
Lemma init_frame server_uri trace_filepath trace_level s res s' t :
  ldap_init rt server_uri trace_filepath trace_level s = (res, s', t) ->
  exists suffix, errors s' = errors s ++ suffix.
Proof. intros Hrun. destruct s as [w errs]. run Hrun; close. Qed.

Lemma bind_frame ldap_client bind_dn bind_pwd s res s' t :
  ldap_bind rt ldap_client bind_dn bind_pwd s = (res, s', t) ->
  exists suffix, errors s' = errors s ++ suffix.
Proof. intros Hrun. destruct s as [w errs]. run Hrun; close. Qed.

Lemma unbind_frame ldap_client s u s' t :
  ldap_unbind rt ldap_client s = (u, s', t) ->
  exists suffix, errors s' = errors s ++ suffix.
Proof. intros Hrun. destruct s as [w errs]. run Hrun; close. Qed.

(** *** More on the single steps *)

Ltac close_more :=
  cbn; repeat split;
  first
    [ reflexivity
    | lia
    | intros; congruence
    | rewrite ?length_app; cbn; lia
    | rewrite <- ?app_assoc; reflexivity
    | intros; repeat split; first [reflexivity | congruence]
    | eexists; reflexivity
    | intros; eexists; split; reflexivity
    | solve [repeat constructor] ].

(** What the five directory operations do, besides the frame. *)
Lemma directory_more op s u s' t :
  run_directory_op rt op s = (u, s', t) ->
  bracket_shape t = true /\
  Forall (fun c => omap handle_of t = [c]) (omap action_handle t) /\
  (List.filter is_action t <> [] ->
     errors s = [] /\ setup_ok t = true /\ existsb bound_ok t = true) /\
  (errors s = [] -> setup_ok t = true -> length (List.filter is_action t) = 1%nat) /\
  (errors s = [] -> setup_ok t = true ->
     match op with
     | op_add entry_dn attrs =>
         exists c, omap add_args t = [(c, entry_dn, addModlist rt attrs)]
     | op_modify entry_dn mod_entry =>
         exists c, omap modify_args t = [(c, entry_dn, mod_entry)]
     | op_delete entry_dn => exists c, omap delete_args t = [(c, entry_dn)]
     | _ => True
     end).
Proof.
  intros Hrun. destruct s as [w errs].
  destruct op; destruct errs as [|msg errs];
    try destruct curr_pwd as [[|? ?]|].
  all: run Hrun.
  all: close_more.
Qed.

(** A password change that returns a password. *)
Lemma change_pwd_more user_dn new_pwd curr_pwd s res s' t :
  ldap_change_pwd rt user_dn new_pwd curr_pwd s = (res, s', t) ->
  (res <> None ->
     errors s = [] /\ setup_ok t = true /\ existsb action_failed t = false /\
     errors s' = unbind_errors rt t) /\
  (errors s <> [] -> res = None).
Proof.
  intros Hrun. destruct s as [w errs].
  destruct errs as [|msg errs]; destruct curr_pwd as [[|? ?]|].
  all: run Hrun.
  all: close_more.
Qed.

(** What [ldap_init] does. *)
Lemma init_run server_uri trace_filepath trace_level s res s' t :
  ldap_init rt server_uri trace_filepath trace_level s = (res, s', t) ->
  res = head (omap handle_of t) /\
  forallb is_init_call t = true /\
  (length (List.filter raised t) <= 1)%nat /\
  errors s' = errors s ++ omap (reported rt "Error initializing the LDAP client: ") t /\
  omap open_args t =
    match std_stream trace_filepath with
    | Some _ => []
    | None => [(trace_filepath, "a"%string)]
    end /\
  omap init_args t =
    map (fun f => (server_uri, default 0 trace_level, f))
      (match std_stream trace_filepath with
       | Some out => [out]
       | None => omap opened_file t
       end) /\
  Forall (fun x => res = Some x.1.1) (omap option_args t) /\
  (existsb raised t = false ->
     exists c, res = Some c /\ omap option_args t = configuration rt c).
Proof.
  intros Hrun. destruct s as [w errs].
  unfold ldap_init, open_trace_out in Hrun. unfold std_stream.
  destruct trace_filepath as [|str|p];
    [|destruct (decide (str = "sys.stdout"%string));
      [|destruct (decide (str = "sys.stderr"%string))]|].
  all: run Hrun.
  all: cbn; repeat split.
  all: first
    [ reflexivity
    | lia
    | rewrite app_nil_r; reflexivity
    | intros; congruence
    | intros; eexists; split; reflexivity
    | solve [repeat constructor] ].
Qed.

End Brackets.

(** ** The claims *)

Section Claims.

Context {W : Type}.
Variable rt : platform W.

(** *** Shared lemmas *)

(** A search leaves an append-only error list and writes nothing. *)
Lemma search_frame base_dn attrs scope filter_str attrs_only s res s' t :
  ldap_search rt base_dn attrs scope filter_str attrs_only s = (res, s', t) ->
  (exists suffix, errors s' = errors s ++ suffix) /\
  (errors s <> [] -> List.filter is_action t = []) /\
  (exists e t', t = e :: t' /\ is_init_call e = true) /\
  Forall (fun h => h ∈ (omap bind_args t).*1.*1) (omap handle_of t).
Proof.
  intros Hrun.
  assert (run_directory_op rt (op_search base_dn attrs scope filter_str attrs_only) s
          = (tt, s', t)) as Hop.
  { unfold run_directory_op, bind, ret. rewrite Hrun, app_nil_r. reflexivity. }
  apply directory_run in Hop as (? & ? & ? & ? & _). auto.
Qed.

Lemma modify_entry_frame entry_dn mod_entry s u s' t :
  ldap_modify_entry rt entry_dn mod_entry s = (u, s', t) ->
  (exists suffix, errors s' = errors s ++ suffix) /\
  (errors s <> [] -> List.filter is_action t = []) /\
  (exists e t', t = e :: t' /\ is_init_call e = true) /\
  Forall (fun h => h ∈ (omap bind_args t).*1.*1) (omap handle_of t) /\
  (length (List.filter is_write t) <= 1)%nat.
Proof.
  intros Hrun.
  apply (directory_run rt (op_modify entry_dn mod_entry)) in Hrun
    as (? & ? & ? & ? & _ & _ & _ & _ & ?). auto.
Qed.

(** The loop of [ldap_modify_user] follows the reconciliation rule. *)
Lemma build_mod_entries_rule entry attrs acc :
  (forall n v, (n, v) ∈ attrs -> entry !! n <> Some []) ->
  build_mod_entries entry attrs acc =
    inr (acc ++ omap (fun '(n, v) => reconcile_rule n v (entry !! n ≫= head)) attrs).
Proof.
  revert acc. induction attrs as [|[n v] attrs IH]; intros acc Hvals.
  - cbn. rewrite app_nil_r. reflexivity.
  - assert (entry !! n <> Some []) as Hn by (apply (Hvals n v); left).
    assert (forall n' v', (n', v') ∈ attrs -> entry !! n' <> Some []) as Hrest
      by (intros; eapply Hvals; right; eassumption).
    cbn [build_mod_entries omap list_omap].
    destruct v as [[|b0 bs]|]; cbn [truthy truthy_optional truthy_list].
    + destruct (entry !! n) as [[|x l]|]; cbn; rewrite IH by assumption;
        rewrite <- ?app_assoc; reflexivity.
    + destruct (entry !! n) as [[|x l]|] eqn:Hl; [congruence| |].
      * cbn [head mbind option_bind reconcile_rule stated_rule].
        case_bool_decide as Hne; destruct (decide (b0 :: bs = x)) as [Heq|Heq];
          try congruence;
          rewrite IH by assumption; rewrite <- ?app_assoc; reflexivity.
      * cbn. rewrite IH by assumption. rewrite <- app_assoc. reflexivity.
    + destruct (entry !! n) as [[|x l]|]; cbn; rewrite IH by assumption;
        rewrite <- ?app_assoc; reflexivity.
Qed.

(** Desired values equal to the current ones leave the loop nothing
    to emit. *)
Lemma build_mod_entries_same entry attrs acc :
  (forall n v, (n, v) ∈ attrs -> v = entry !! n ≫= head /\ v <> Some []) ->
  build_mod_entries entry attrs acc = inr acc.
Proof.
  revert acc. induction attrs as [|[n v] attrs IH]; intros acc Hsame; [reflexivity|].
  destruct (Hsame n v) as [Hv Hne]; [left|].
  assert (forall n' v', (n', v') ∈ attrs -> v' = entry !! n' ≫= head /\ v' <> Some [])
    as Hrest by (intros; apply Hsame; right; assumption).
  cbn [build_mod_entries].
  destruct (entry !! n) as [[|x l]|]; cbn in Hv; subst v.
  - cbn. apply IH, Hrest.
  - destruct x as [|b0 bs]; [congruence|].
    cbn. case_bool_decide; [congruence|]. apply IH, Hrest.
  - cbn. apply IH, Hrest.
Qed.

(** *** The claims about one operation *)

(** C6. A search that reaches its action step issues one [search_s]
    call, on the base and attribute list it was given; with the scope
    omitted the call has base-object scope, with the filter omitted it
    has the match-any filter on objectClass, and [attrs_only] selects
    [attrsonly=1], which asks for attribute names without values. *)
Theorem search_defaults base_dn attrs scope filter_str attrs_only s :
  let t := calls_of (ldap_search rt base_dn attrs scope filter_str attrs_only s) in
  errors s = [] ->
  setup_ok t = true ->
  exists c sc f ao,
    omap search_args t = [(c, base_dn, sc, f, attrs, ao)] /\
    (scope = None -> sc = SCOPE_BASE) /\
    (filter_str = None -> f = "(objectClass=*)"%string) /\
    (attrs_only = true -> ao = 1) /\
    (attrs_only = false -> ao = 0).
Proof.
  intros t Herrs Hok. subst t.
  destruct (ldap_search _ _ _ _ _ _ _) as [[res s'] t] eqn:Hrun.
  apply search_run in Hrun as (_ & _ & _ & _ & Hargs & _).
  destruct (Hargs Herrs Hok) as [c Hc].
  exists c, (py_or scope SCOPE_BASE), (py_or filter_str "(objectClass=*)"%string),
    (if attrs_only then 1 else 0).
  split; [exact Hc|].
  repeat split; intros ->; reflexivity.
Qed.

(** C7 (as amended). A search whose [search_s] call matched no entry
    returns the empty list; it started from an empty error list, and
    the only messages it can leave in it are those of a failed
    unbinding: the empty match itself appends nothing. *)
Theorem search_no_match base_dn attrs scope filter_str attrs_only s :
  let r := ldap_search rt base_dn attrs scope filter_str attrs_only s in
  [] ∈ omap hits_of (calls_of r) ->
  result_of r = Some [] /\
  errors s = [] /\
  errors (state_of r) = unbind_errors rt (calls_of r).
Proof.
  intros r Hempty. subst r.
  destruct (ldap_search _ _ _ _ _ _ _) as [[res s'] t] eqn:Hrun.
  apply search_run in Hrun as (Hhits & _ & _ & _ & _ & _ & Hsome).
  cbn in *. rewrite Hhits in Hempty.
  destruct res as [found|]; cbn in Hempty.
  - apply list_elem_of_singleton in Hempty as <-.
    split; [reflexivity|]. apply Hsome. discriminate.
  - apply elem_of_nil in Hempty as [].
Qed.

(** C9 (as amended). A password change binds each client object it
    obtains once: with the user's DN and the current password when a
    current password that is not the empty string is given, with the
    default credentials when none is given or it is empty. *)
Theorem change_pwd_bind user_dn new_pwd curr_pwd s :
  let t := calls_of (ldap_change_pwd rt user_dn new_pwd curr_pwd s) in
  omap bind_args t =
    map (fun c => (c, (bind_credentials rt user_dn curr_pwd).1,
                      (bind_credentials rt user_dn curr_pwd).2))
      (omap handle_of t).
Proof.
  intros t; subst t.
  destruct (ldap_change_pwd _ _ _ _ _) as [[res s'] t] eqn:Hrun.
  apply change_pwd_run in Hrun as [Hbind _].
  exact Hbind.
Qed.
(** *** The claims about composed operations *)

Lemma truthy_snoc {A} (l : list A) (x : A) : truthy (l ++ [x]) = true.
Proof. destruct l; reflexivity. Qed.

(** The run of [ldap_modify_user], given the run of its search. *)
Lemma modify_user_run user_id attrs s res s1 t1 :
  user_search rt user_id attrs s = (res, s1, t1) ->
  ldap_modify_user rt user_id attrs s =
    match res with
    | Some ((dn, entry) :: _) =>
        match errors s1 with
        | [] =>
            match build_mod_entries entry attrs [] with
            | inl e => (inl e, s1, t1)
            | inr [] => (inr tt, s1, t1)
            | inr mods =>
                let '(_, s2, t2) := ldap_modify_entry rt dn mods s1 in
                (inr tt, s2, t1 ++ t2)
            end
        | _ :: _ => (inr tt, s1, t1)
        end
    | _ =>
        (inr tt, mkState (world s1) (errors s1 ++ [user_not_found user_id]), t1)
    end.
Proof.
  intros Hs. unfold ldap_modify_user, bind, ret, not_errors, errors_append.
  rewrite Hs. destruct res as [[|[dn entry] rest]|]; cbn.
  - rewrite truthy_snoc. cbn. rewrite !app_nil_r. reflexivity.
  - destruct s1 as [w1 [|msg errs]]; cbn; [|rewrite !app_nil_r; reflexivity].
    destruct (build_mod_entries entry attrs []) as [e|[|m mods]]; cbn;
      rewrite ?app_nil_r; try reflexivity.
    destruct (ldap_modify_entry _ _ _ _) as [[u s2] t2]. cbn.
    rewrite !app_nil_r. reflexivity.
  - rewrite truthy_snoc. cbn. rewrite !app_nil_r. reflexivity.
Qed.

(** The run of [ldap_get_value], given the run of its search. *)
Lemma get_value_run entry_dn attr s res s1 t1 :
  ldap_search rt entry_dn [attr] None None false s = (res, s1, t1) ->
  ldap_get_value_list rt entry_dn attr s =
    ((res ≫= head) ≫= (fun hit : search_hit => hit.2 !! attr), s1, t1) /\
  ldap_get_value rt entry_dn attr s =
    (((res ≫= head) ≫= (fun hit : search_hit => hit.2 !! attr)) ≫= head, s1, t1).
Proof.
  intros Hs. unfold ldap_get_value, ldap_get_value_list, bind, ret. rewrite Hs.
  destruct res as [[|[dn entry] rest]|]; cbn; rewrite ?app_nil_r; try done.
  destruct (entry !! attr) as [[|x l]|]; cbn; rewrite ?app_nil_r; done.
Qed.

(** C1 (as amended). When the opening search of [ldap_modify_user]
    finds the entry and leaves the error list empty, and every listed
    attribute the entry has comes with a value, the modifications
    built are, pair by pair: REPLACE for a new value that is neither
    null nor empty and differs from the existing first value, ADD for
    such a new value when the entry has no value, DELETE for a null or
    empty new value when the entry has one, nothing otherwise.  The
    list is handed to one [ldap_modify_entry] only if it is not empty,
    and the whole pass issues at most one write. *)
Theorem modify_user_reconciles user_id attrs s dn entry rest :
  let r1 := user_search rt user_id attrs s in
  let r := ldap_modify_user rt user_id attrs s in
  let mods := omap (fun '(n, v) => reconcile_rule n v (entry !! n ≫= head)) attrs in
  result_of r1 = Some ((dn, entry) :: rest) ->
  errors (state_of r1) = [] ->
  (forall n v, (n, v) ∈ attrs -> entry !! n <> Some []) ->
  result_of r = inr tt /\
  calls_of r =
    calls_of r1 ++
      (if decide (mods = []) then []
       else calls_of (ldap_modify_entry rt dn mods (state_of r1))) /\
  (length (List.filter is_write (calls_of r)) <= 1)%nat /\
  Forall (fun x => x.1.2 = dn /\ x.2 = mods /\ mods <> [])
    (omap modify_args (calls_of r)).
Proof.
  intros r1 r mods Hres Herrs Hvals. subst r1 r.
  destruct (user_search rt user_id attrs s) as [[res s1] t1] eqn:Hs.
  rewrite (modify_user_run _ _ _ _ _ _ Hs).
  unfold result_of, state_of, calls_of in *. cbn in Hres, Herrs. subst res.
  unfold user_search in Hs.
  apply search_run in Hs as (_ & Hwrite & Hmod & _).
  rewrite Herrs, (build_mod_entries_rule entry attrs [] Hvals). cbn [app].
  fold mods. clearbody mods. destruct mods as [|m mods'].
  - cbn. rewrite !app_nil_r, Hwrite, Hmod. cbn.
    repeat split; [lia | constructor].
  - rewrite decide_False by discriminate. cbn [fst snd].
    destruct (ldap_modify_entry rt dn (m :: mods') s1) as [[u s2] t2] eqn:Hm.
    pose proof (modify_entry_frame _ _ _ _ _ _ Hm) as (_ & _ & _ & _ & Hone).
    pose proof (modify_entry_run _ _ _ _ _ _ _ Hm) as (_ & Hargs & _).
    cbn. rewrite List.filter_app, omap_app, Hwrite, Hmod. cbn.
    do 3 (split; [reflexivity || assumption|]).
    eapply Forall_impl; [exact Hargs|].
    intros x [? ?]. repeat split; [assumption..|discriminate].
Qed.

Lemma found_entry_app t1 t2 hits :
  omap hits_of t1 = [hits] -> found_entry (t1 ++ t2) = head hits.
Proof. intros H. unfold found_entry. rewrite omap_app, H. reflexivity. Qed.

Lemma found_entry_search t res :
  omap hits_of t = option_list res -> found_entry t = res ≫= head.
Proof. intros H. unfold found_entry. rewrite H. destruct res; reflexivity. Qed.

(** C2 (as amended). When every desired value equals the current
    first value of its attribute in the entry the directory returned,
    [ldap_set_value] issues no write, and [ldap_modify_user] issues no
    write provided no desired value is the empty byte string. *)
Theorem reconcile_idempotent op s :
  let t := calls_of (run_reconcile rt op s) in
  (forall n v, (n, v) ∈ desired op ->
     v = current_first_value t n /\ (is_modify_user op = true -> v <> Some [])) ->
  List.filter is_write t = [].
Proof.
  intros t Hsame. subst t. destruct op as [user_id attrs|entry_dn attr value].
  - unfold run_reconcile, desired, is_modify_user, bind, ret, calls_of in *.
    destruct (user_search rt user_id attrs s) as [[res s1] t1] eqn:Hs.
    rewrite (modify_user_run _ _ _ _ _ _ Hs) in *.
    unfold user_search in Hs.
    apply search_run in Hs as (Hhits & Hwrite & _).
    destruct res as [[|[dn entry] rest]|]; cbn in *;
      [rewrite app_nil_r; exact Hwrite| |rewrite app_nil_r; exact Hwrite].
    destruct (errors s1) as [|msg errs]; cbn in *;
      [|rewrite app_nil_r; exact Hwrite].
    assert (forall t2, current_first_value (t1 ++ t2) = fun n => entry !! n ≫= head)
      as Hcur.
    { intros t2. unfold current_first_value, current_values.
      rewrite (found_entry_app _ _ _ Hhits). reflexivity. }
    destruct (build_mod_entries entry attrs []) as [e|[|m mods]] eqn:Hbuild;
      cbn in *; rewrite ?app_nil_r; try exact Hwrite.
    exfalso.
    rewrite build_mod_entries_same in Hbuild; [discriminate|].
    intros n v Hin. destruct (Hsame n v Hin) as [Hv Hne].
    destruct (ldap_modify_entry _ _ _ _) as [[u s2] t2]. cbn in Hv.
    rewrite app_nil_r, Hcur in Hv. auto.
  - unfold run_reconcile, desired, is_modify_user, ldap_set_value, bind, ret,
      not_errors, calls_of in *.
    destruct (ldap_search rt entry_dn [attr] None None false s) as [[res s1] t1] eqn:Hs.
    destruct (get_value_run _ _ _ _ _ _ Hs) as [_ Hget]. rewrite Hget in *.
    apply search_run in Hs as (Hhits & Hwrite & _ & Hskip & _).
    cbn in *.
    destruct (errors s1) as [|msg errs] eqn:Herrs; cbn in *;
      [|rewrite !app_nil_r; exact Hwrite].
    set (curr := ((res ≫= head) ≫= (fun hit : search_hit => hit.2 !! attr)) ≫= head) in *.
    assert (forall t2, omap hits_of t2 = [] ->
              current_first_value (t1 ++ [] ++ [] ++ t2) attr = curr) as Hcur.
    { intros t2 Ht2. unfold current_first_value, current_values. cbn.
      rewrite (found_entry_search _ res); [reflexivity|].
      rewrite omap_app, Hhits, Ht2, app_nil_r. reflexivity. }
    destruct (Hsame attr value) as [Hv _]; [left|].
    destruct curr as [c|] eqn:Hc; destruct value as [v|]; cbn in *.
    + case_bool_decide as Hne; cbn in *; [|rewrite !app_nil_r; exact Hwrite].
      exfalso. apply Hne.
      destruct (ldap_modify_entry _ _ _ _) as [[u s2] t2] eqn:Hm.
      apply modify_entry_run in Hm as (Hnohits & _). cbn in Hv.
      rewrite Hcur in Hv by assumption. congruence.
    + exfalso.
      destruct (ldap_modify_entry _ _ _ _) as [[u s2] t2] eqn:Hm.
      apply modify_entry_run in Hm as (Hnohits & _). cbn in Hv.
      rewrite Hcur in Hv by assumption. congruence.
    + exfalso.
      destruct (ldap_modify_entry _ _ _ _) as [[u s2] t2] eqn:Hm.
      apply modify_entry_run in Hm as (Hnohits & _). cbn in Hv.
      rewrite Hcur in Hv by assumption. congruence.
    + rewrite !app_nil_r. exact Hwrite.
Qed.

(** C3. When no search of the pass returns an entry, [ldap_modify_user]
    returns normally, the last message of the error list is the
    not-found message for the user, the messages present before are
    kept in front, and no write is issued; every search of the pass
    is the one-level search for [cn=<id>] under [cn=users,<base>]. *)
Theorem modify_user_not_found user_id attrs s :
  let r := ldap_modify_user rt user_id attrs s in
  Forall (fun hits => hits = []) (omap hits_of (calls_of r)) ->
  result_of r = inr tt /\
  (exists before,
     errors (state_of r) = errors s ++ before ++ [user_not_found user_id]) /\
  List.filter is_write (calls_of r) = [] /\
  Forall (fun x => x.1.1.1.1.2 = ("cn=users," +:+ fmt_opt id (LDAP_BASE_DN rt))%string /\
                   x.1.1.1.2 = SCOPE_ONELEVEL /\
                   x.1.1.2 = ("cn=" +:+ user_id)%string /\
                   x.1.2 = map fst attrs)
    (omap search_args (calls_of r)).
Proof.
  intros r Hnone. subst r.
  destruct (user_search rt user_id attrs s) as [[res s1] t1] eqn:Hs.
  rewrite (modify_user_run _ _ _ _ _ _ Hs) in *.
  unfold user_search in Hs.
  pose proof (search_frame _ _ _ _ _ _ _ _ _ Hs) as ([suffix Hsuffix] & _).
  apply search_run in Hs as (Hhits & Hwrite & _ & _ & _ & Hargs & _).
  unfold result_of, state_of, calls_of in *.
  assert (res = None \/ res = Some []) as Hres.
  { destruct res as [[|hit rest]|]; auto. exfalso.
    assert (forall t2, Forall (fun hits => hits = []) (omap hits_of (t1 ++ t2)) -> False)
      as Habsurd.
    { intros t2. rewrite omap_app, Hhits. cbn. inversion 1; discriminate. }
    destruct hit as [dn entry].
    destruct (errors s1); [|eapply (Habsurd []); rewrite app_nil_r; exact Hnone].
    destruct (build_mod_entries entry attrs []) as [e|[|m mods]];
      try (eapply (Habsurd []); rewrite app_nil_r; exact Hnone).
    destruct (ldap_modify_entry _ _ _ _) as [[u s2] t2].
    eapply Habsurd. exact Hnone. }
  assert ((let '(a, s', t') :=
             match res with
             | Some ((dn, entry) :: _) =>
                 match errors s1 with
                 | [] =>
                     match build_mod_entries entry attrs [] with
                     | inl e => (inl e, s1, t1)
                     | inr [] => (inr tt, s1, t1)
                     | inr mods =>
                         let '(_, s2, t2) := ldap_modify_entry rt dn mods s1 in
                         (inr tt, s2, t1 ++ t2)
                     end
                 | _ :: _ => (inr tt, s1, t1)
                 end
             | _ =>
                 (inr tt,
                  mkState (world s1) (errors s1 ++ [user_not_found user_id]), t1)
             end in (a, s', t')) =
          (inr tt, mkState (world s1) (errors s1 ++ [user_not_found user_id]), t1))
    as Hrun by (destruct Hres as [-> | ->]; reflexivity).
  destruct Hres as [-> | ->]; cbn.
  all: repeat split; try assumption.
  all: try (exists suffix; rewrite Hsuffix, <- app_assoc; reflexivity).
  all: eapply Forall_impl; [exact Hargs|]; cbn; intros x (? & ? & ? & ?); auto.
Qed.

(** C8. [ldap_get_value_list] searches the entry it is given, at base
    scope, for the one attribute and with its values; the list it
    returns is that of the attribute's values in the first entry the
    directory returned, as the directory returned it, and nothing when
    no entry came back or the entry lacks the attribute.
    [ldap_get_value] makes the same calls and returns the first
    element of that list, and nothing when the list is absent or
    empty. *)
Theorem get_value_first entry_dn attr s :
  let rl := ldap_get_value_list rt entry_dn attr s in
  let rv := ldap_get_value rt entry_dn attr s in
  (errors s = [] -> setup_ok (calls_of rl) = true ->
     exists c, omap search_args (calls_of rl) =
       [(c, entry_dn, SCOPE_BASE, "(objectClass=*)"%string, [attr], 0)]) /\
  (forall dn entry rest,
     omap hits_of (calls_of rl) = [(dn, entry) :: rest] ->
     result_of rl = entry !! attr) /\
  (omap hits_of (calls_of rl) = [] \/ omap hits_of (calls_of rl) = [[]] ->
     result_of rl = None) /\
  result_of rl = current_values (calls_of rl) attr /\
  result_of rv = result_of rl ≫= head /\
  state_of rv = state_of rl /\
  calls_of rv = calls_of rl.
Proof.
  intros rl rv. subst rl rv.
  destruct (ldap_search rt entry_dn [attr] None None false s) as [[res s1] t1] eqn:Hs.
  destruct (get_value_run _ _ _ _ _ _ Hs) as [-> ->].
  apply search_run in Hs as (Hhits & _ & _ & _ & Hargs & _).
  unfold result_of, state_of, calls_of, current_values. cbn.
  rewrite (found_entry_search _ _ Hhits).
  split; [exact Hargs|].
  rewrite Hhits.
  split; [|split; [|auto]].
  - intros dn entry rest Hhit. destruct res as [found|]; [|discriminate Hhit].
    cbn in Hhit. injection Hhit as ->. reflexivity.
  - intros [Hnone|Hnone]; destruct res as [found|]; try discriminate Hnone;
      [reflexivity|].
    cbn in Hnone. injection Hnone as ->. reflexivity.
Qed.

Lemma search_framed base_dn attrs scope filter_str attrs_only s res s' t :
  ldap_search rt base_dn attrs scope filter_str attrs_only s = (res, s', t) ->
  framed s s' t.
Proof.
  intros Hrun. apply search_frame in Hrun as (? & ? & ? & ?).
  split; auto.
Qed.

Lemma modify_entry_framed entry_dn mod_entry s u s' t :
  ldap_modify_entry rt entry_dn mod_entry s = (u, s', t) ->
  framed s s' t.
Proof.
  intros Hrun. apply modify_entry_frame in Hrun as (? & ? & ? & ? & _).
  split; auto.
Qed.

(** A modification that follows a search which left no error. *)
Lemma framed_then_modify s s1 t1 entry_dn mod_entry u s2 t2 :
  framed s s1 t1 ->
  errors s1 = [] ->
  ldap_modify_entry rt entry_dn mod_entry s1 = (u, s2, t2) ->
  framed s s2 (t1 ++ t2).
Proof.
  intros [[suffix Hsuffix] _] Hnil Hm.
  apply modify_entry_frame in Hm as ([suffix2 Hsuffix2] & _).
  rewrite Hnil in Hsuffix. symmetry in Hsuffix.
  apply app_eq_nil in Hsuffix as [Hs _].
  split.
  - exists suffix2. rewrite Hsuffix2, Hnil, Hs. reflexivity.
  - intros Hne. contradiction.
Qed.

Lemma framed_append (s s1 : state W) t1 msg :
  framed s s1 t1 ->
  framed s (mkState (world s1) (errors s1 ++ [msg])) t1.
Proof.
  intros [[suffix Hsuffix] Hskip]. split; [|exact Hskip].
  exists (suffix ++ [msg]). cbn. rewrite Hsuffix, app_assoc. reflexivity.
Qed.

(** C10. Every public function only appends to the error list it is
    given: the list it leaves is the list it received followed by new
    messages.  A function that opens a connection of its own and is
    given a non-empty list makes no action call, although it still
    starts with the initialization of the client and binds every
    client object it obtains. *)
Theorem errors_append_only op s :
  let r := run_public rt op s in
  (exists suffix, errors (state_of r) = errors s ++ suffix) /\
  (errors s <> [] -> opens_connection op = true ->
     List.filter is_action (calls_of r) = [] /\
     (exists e t', calls_of r = e :: t' /\ is_init_call e = true) /\
     Forall (fun h => h ∈ (omap bind_args (calls_of r)).*1.*1)
       (omap handle_of (calls_of r))).
Proof.
  intros r. subst r.
  assert (opens_connection op = true ->
          framed s (state_of (run_public rt op s)) (calls_of (run_public rt op s)))
    as Hframed.
  { intros Hopens. unfold state_of, calls_of.
    destruct op; try discriminate Hopens; unfold run_public, bind, ret.
    - destruct (run_directory_op rt op s) as [[u s'] t] eqn:Hrun.
      apply directory_run in Hrun as (? & ? & ? & ? & _). split; auto.
    - destruct (user_search rt user_id attrs s) as [[res s1] t1] eqn:Hs.
      rewrite (modify_user_run _ _ _ _ _ _ Hs).
      apply search_framed in Hs.
      destruct res as [[|[dn entry] rest]|]; cbn;
        rewrite ?app_nil_r; try (apply framed_append; exact Hs).
      destruct (errors s1) as [|msg errs] eqn:Herrs; cbn;
        rewrite ?app_nil_r; try exact Hs.
      destruct (build_mod_entries entry attrs []) as [e|[|m mods]]; cbn;
        rewrite ?app_nil_r; try exact Hs.
      destruct (ldap_modify_entry _ _ _ _) as [[? ?s2] ?t2] eqn:Hm. cbn.
      rewrite app_nil_r. eapply framed_then_modify; eassumption.
    - destruct (ldap_search rt entry_dn [attr] None None false s)
        as [[res s1] t1] eqn:Hs.
      destruct (get_value_run _ _ _ _ _ _ Hs) as [_ ->]. cbn.
      rewrite app_nil_r. eapply search_framed; eassumption.
    - unfold ldap_add_value.
      destruct (ldap_modify_entry _ _ _ _) as [[? ?s2] ?t2] eqn:Hm. cbn.
      eapply modify_entry_framed; eassumption.
    - unfold ldap_set_value, bind, ret, not_errors.
      destruct (ldap_search rt entry_dn [attr] None None false s)
        as [[res s1] t1] eqn:Hs.
      destruct (get_value_run _ _ _ _ _ _ Hs) as [_ ->].
      apply search_framed in Hs.
      destruct (errors s1) as [|msg errs] eqn:Herrs; cbn;
        [|rewrite !app_nil_r; exact Hs].
      destruct (((res ≫= head) ≫= _) ≫= head) as [curr|];
        destruct value as [v|]; try case_bool_decide;
        cbn; rewrite ?app_nil_r; try exact Hs.
      all: destruct (ldap_modify_entry _ _ _ _) as [[? ?s2] ?t2] eqn:Hm; cbn.
      all: eapply framed_then_modify; eassumption.
    - destruct (ldap_search rt entry_dn [attr] None None false s)
        as [[res s1] t1] eqn:Hs.
      destruct (get_value_run _ _ _ _ _ _ Hs) as [-> _]. cbn.
      rewrite app_nil_r. eapply search_framed; eassumption.
    - unfold ldap_get_values, ldap_get_values_lists, bind, ret.
      destruct (ldap_search rt entry_dn attrs None None false s)
        as [[res s1] t1] eqn:Hs.
      apply search_framed in Hs.
      destruct res as [[|[dn entry] rest]|]; cbn; rewrite ?app_nil_r; try exact Hs.
      destruct (first_items _) as [e|items]; cbn; rewrite ?app_nil_r; exact Hs.
    - unfold ldap_get_values_lists, bind, ret.
      destruct (ldap_search rt entry_dn attrs None None false s)
        as [[res s1] t1] eqn:Hs.
      apply search_framed in Hs.
      destruct res as [[|[dn entry] rest]|]; cbn; rewrite ?app_nil_r; exact Hs. }
  split.
  - destruct (opens_connection op) eqn:Hopens; [apply Hframed; reflexivity|].
    unfold state_of.
    destruct op; try discriminate Hopens; unfold run_public, bind, ret.
    + destruct (ldap_init _ _ _ _ _) as [[res s'] t] eqn:Hrun. cbn.
      eapply init_frame; eassumption.
    + destruct (ldap_bind _ _ _ _ _) as [[res s'] t] eqn:Hrun. cbn.
      eapply bind_frame; eassumption.
    + destruct (ldap_unbind _ _ _) as [[res s'] t] eqn:Hrun. cbn.
      eapply unbind_frame; eassumption.
  - intros Hne Hopens. apply Hframed; assumption.
Qed.

End Claims.

(** ** Concrete runs *)

(** A directory in which user bob has one mail address. *)
Definition bob_dn : string := "cn=bob,cn=users,dc=example,dc=com".
Definition bob_entry : attr_dict := {[ "mail"%string := [bytes_lit "bob@old.example.com"] ]}.
Definition bob_server : platform unit := scripted (plain_server [(bob_dn, bob_entry)]).

(** A directory that finds nothing. *)
Definition empty_server : platform unit := scripted (plain_server []).

(** A server that rejects every bind. *)
Definition rejecting_server : platform unit :=
  scripted {| sc_uri := "ldap://ldap.example.com"; sc_bind_ok := false;
              sc_unbind_ok := true; sc_found := []; sc_genpasswd := NoValue |}.

(** A server that finds nothing and fails to unbind. *)
Definition dropping_server : platform unit :=
  scripted {| sc_uri := "ldap://ldap.example.com"; sc_bind_ok := true;
              sc_unbind_ok := false; sc_found := []; sc_genpasswd := NoValue |}.

(** A server reached over TLS that answers a password change with a
    password of its own. *)
Definition tls_server : platform unit :=
  scripted {| sc_uri := "ldaps://ldap.example.com"; sc_bind_ok := true;
              sc_unbind_ok := true; sc_found := [];
              sc_genpasswd := PasswordModifyResponse (bytes_lit "s3rv3r-made") |}.

(** A directory in which bob's mail address is the empty byte string. *)
Definition blank_entry : attr_dict := {[ "mail"%string := [[]] ]}.
Definition blank_server : platform unit := scripted (plain_server [(bob_dn, blank_entry)]).

(** The state of a caller whose [errors] list already holds a message. *)
Definition failed_before : state unit := mkState tt ["earlier failure"%string].

(** *** C1 *)

Lemma modify_user_reconciles_witness :
  let attrs := [("mail"%string, Some (bytes_lit "bob@new.example.com"));
                ("telephoneNumber"%string, Some (bytes_lit "555"));
                ("cn"%string, None)] in
  let t := calls_of (ldap_modify_user bob_server "bob" attrs fresh) in
  (omap modify_args t).*2 =
    [[(MOD_REPLACE, "mail"%string, Some (bytes_lit "bob@new.example.com"));
      (MOD_ADD, "telephoneNumber"%string, Some (bytes_lit "555"))]] /\
  (length (List.filter is_write t) <= 1)%nat.
Proof.
  intros attrs t.
  assert (forall n v, (n, v) ∈ attrs -> bob_entry !! n <> Some []) as Hvals.
  { intros n v Hin. subst attrs.
    repeat (apply elem_of_cons in Hin as [Hin|Hin];
            [injection Hin as -> ->; vm_compute; discriminate|]).
    apply elem_of_nil in Hin as []. }
  destruct (modify_user_reconciles bob_server "bob" attrs fresh bob_dn bob_entry []
              eq_refl eq_refl Hvals) as (_ & _ & Hone & _).
  split; [vm_compute; reflexivity | exact Hone].
Defined.

(** C1, the claim as stated, fails on an empty new value: the value is
    not null, differs from the current first value, and a current value
    exists, yet the modification emitted is DELETE where the stated rule
    gives REPLACE. *)
Lemma empty_value_is_deleted :
  let attrs := [("mail"%string, Some [])] in
  let t := calls_of (ldap_modify_user bob_server "bob" attrs fresh) in
  (omap modify_args t).*2 = [[(MOD_DELETE, "mail"%string, None)]] /\
  omap (fun '(n, v) => stated_rule n v (bob_entry !! n ≫= head)) attrs =
    [(MOD_REPLACE, "mail"%string, Some [])] /\
  (omap modify_args t).*2 <>
    [omap (fun '(n, v) => stated_rule n v (bob_entry !! n ≫= head)) attrs].
Proof.
  intros attrs t. split; [|split]; try (vm_compute; reflexivity).
  vm_compute. discriminate.
Qed.

(** *** C2 *)

Lemma reconcile_idempotent_witness :
  let op := rec_modify_user "bob" [("mail"%string, Some (bytes_lit "bob@old.example.com"))] in
  List.filter is_write (calls_of (run_reconcile bob_server op fresh)) = [].
Proof.
  intros op. apply (reconcile_idempotent bob_server op fresh).
  intros n v Hin. apply list_elem_of_singleton in Hin. injection Hin as -> ->.
  split; [vm_compute; reflexivity | discriminate].
Defined.

(** C2, the claim as stated, fails when the current first value is the
    empty byte string: the desired value equals it, yet
    [ldap_modify_user] issues a write. *)
Lemma empty_value_is_rewritten :
  let op := rec_modify_user "bob" [("mail"%string, Some [])] in
  let t := calls_of (run_reconcile blank_server op fresh) in
  (forall n v, (n, v) ∈ desired op -> v = current_first_value t n) /\
  (omap modify_args t).*2 = [[(MOD_DELETE, "mail"%string, None)]] /\
  List.filter is_write t <> [].
Proof.
  intros op t. split; [|split].
  - intros n v Hin. apply list_elem_of_singleton in Hin. injection Hin as -> ->.
    vm_compute. reflexivity.
  - vm_compute. reflexivity.
  - vm_compute. discriminate.
Qed.

(** *** C3 *)

Lemma modify_user_not_found_witness :
  let r := ldap_modify_user empty_server "bob"
             [("mail"%string, Some (bytes_lit "bob@x.com"))] fresh in
  errors (state_of r) = [user_not_found "bob"] /\
  List.filter is_write (calls_of r) = [].
Proof.
  intros r.
  assert (Forall (fun hits : list search_hit => hits = []) (omap hits_of (calls_of r)))
    as Hnone by (vm_compute; repeat constructor).
  destruct (modify_user_not_found empty_server "bob"
              [("mail"%string, Some (bytes_lit "bob@x.com"))] fresh Hnone)
    as (_ & _ & Hwrite & _).
  split; [vm_compute; reflexivity | exact Hwrite].
Defined.

(** *** C4 *)

(** C4, the claim as stated, fails when the bind is rejected: a client
    object was obtained and a bind attempted, yet nothing is unbound. *)
Lemma rejected_bind_is_not_unbound :
  let t := calls_of (run_directory_op rejecting_server
                       (op_search "dc=example,dc=com" ["mail"%string] None None false)
                       fresh) in
  length (omap handle_of t) = 1%nat /\
  length (List.filter is_bind t) = 1%nat /\
  List.filter is_unbind t = [].
Proof. vm_compute. auto. Qed.

(** *** C5 *)

(** C5: over [ldaps:] the server answers the password change with a
    password of its own and no call raises, yet nothing is returned:
    [resp[1]] is the [PasswordModifyResponse] object, which has no
    [decode], and the error of that attribute access is what is
    reported. *)
Lemma generated_password_is_lost :
  let r := ldap_change_pwd tls_server "uid=alice,dc=example" "newpass123" None fresh in
  omap passwd_reply (calls_of r) = [PasswordModifyResponse (bytes_lit "s3rv3r-made")] /\
  existsb raised (calls_of r) = false /\
  result_of r = None /\
  result_of r <> Some "s3rv3r-made"%string /\
  errors (state_of r) =
    ["Error on the LDAP password change operation: " +:+
       exc_format tls_server
         (PyError "AttributeError"
            "'PasswordModifyResponse' object has no attribute 'decode'")]%string.
Proof.
  intros r. split; [|split; [|split; [|split]]]; try (vm_compute; reflexivity).
  vm_compute. discriminate.
Qed.

(** *** C6 *)

Lemma search_defaults_witness :
  exists c,
    omap search_args
      (calls_of (ldap_search empty_server "dc=example,dc=com" ["mail"%string]
                   None None true fresh)) =
      [(c, "dc=example,dc=com"%string, SCOPE_BASE, "(objectClass=*)"%string,
        ["mail"%string], 1)].
Proof.
  destruct (search_defaults empty_server "dc=example,dc=com" ["mail"%string]
              None None true fresh eq_refl eq_refl)
    as (c & sc & f & ao & Hargs & Hsc & Hf & Hao & _).
  exists c. rewrite Hargs, (Hsc eq_refl), (Hf eq_refl), (Hao eq_refl). reflexivity.
Defined.

(** *** C7 *)

Lemma search_no_match_witness :
  let r := ldap_search empty_server "dc=example,dc=com" ["mail"%string] None None false
             fresh in
  result_of r = Some [] /\ errors (state_of r) = [].
Proof.
  intros r.
  assert ([] ∈ omap hits_of (calls_of r)) as Hempty by (vm_compute; left).
  destruct (search_no_match empty_server "dc=example,dc=com" ["mail"%string] None None
              false fresh Hempty) as (Hres & _ & Herrs).
  split; [exact Hres|]. fold r in Herrs. rewrite Herrs. vm_compute. reflexivity.
Defined.

(** C7, the claim as stated, fails when the unbinding fails: the search
    reached its action step and matched nothing, yet a message is
    appended to the error list. *)
Lemma failed_unbind_is_reported :
  let r := ldap_search dropping_server "dc=example,dc=com" ["mail"%string] None None false
             fresh in
  setup_ok (calls_of r) = true /\
  omap hits_of (calls_of r) = [[]] /\
  result_of r = Some [] /\
  errors (state_of r) =
    ["Error unbinding with the LDAP server: " +:+
       __ldap_except_msg dropping_server server_down]%string /\
  errors (state_of r) <> errors fresh.
Proof.
  intros r. split; [|split; [|split; [|split]]]; try (vm_compute; reflexivity).
  vm_compute. discriminate.
Qed.

(** *** C8 *)

(** A directory in which carol has three mail addresses. *)
Definition carol_dn : string := "cn=carol,cn=users,dc=example,dc=com".
Definition carol_mails : list bytes :=
  [bytes_lit "carol@c.example.com"; bytes_lit "carol@a.example.com";
   bytes_lit "carol@b.example.com"].
Definition carol_entry : attr_dict := {[ "mail"%string := carol_mails ]}.
Definition carol_server : platform unit := scripted (plain_server [(carol_dn, carol_entry)]).

Lemma get_value_first_witness :
  let rl := ldap_get_value_list carol_server carol_dn "mail" fresh in
  let rv := ldap_get_value carol_server carol_dn "mail" fresh in
  (exists c, omap search_args (calls_of rl) =
     [(c, carol_dn, SCOPE_BASE, "(objectClass=*)"%string, ["mail"%string], 0)]) /\
  result_of rl = Some carol_mails /\
  result_of rv = Some (bytes_lit "carol@c.example.com").
Proof.
  intros rl rv.
  destruct (get_value_first carol_server carol_dn "mail" fresh)
    as (Hargs & Hvalues & _ & _ & Hfirst & _).
  split; [exact (Hargs eq_refl eq_refl)|].
  assert (result_of rl = Some carol_mails) as Hlist.
  { unfold rl. rewrite (Hvalues carol_dn carol_entry []); vm_compute; reflexivity. }
  split; [exact Hlist|].
  unfold rv. rewrite Hfirst. fold rl. rewrite Hlist. reflexivity.
Defined.

(** *** C9 *)

(** C9, the claim as stated, fails on an empty current password: it is
    supplied, yet the bind uses the default credentials. *)
Lemma empty_password_binds_default :
  let user_dn := "uid=alice,dc=example"%string in
  let t := calls_of (ldap_change_pwd empty_server user_dn "newpass123"
                       (Some EmptyString) fresh) in
  map (fun x => (x.1.2, x.2)) (omap bind_args t) =
    [(Some "cn=admin,dc=example,dc=com"%string, Some "secret"%string)] /\
  stated_bind_credentials empty_server user_dn (Some EmptyString) =
    (Some user_dn, Some EmptyString) /\
  map (fun x => (x.1.2, x.2)) (omap bind_args t) <>
    [stated_bind_credentials empty_server user_dn (Some EmptyString)].
Proof.
  intros user_dn t. split; [|split]; try (vm_compute; reflexivity).
  vm_compute. discriminate.
Qed.

(** *** C10 *)

Lemma errors_append_only_witness :
  let r := run_public empty_server
             (pub_set_value "cn=bob,dc=example" "mail" (Some (bytes_lit "bob@x.com")))
             failed_before in
  List.filter is_action (calls_of r) = [] /\
  length (List.filter is_bind (calls_of r)) = 1%nat /\
  exists suffix, errors (state_of r) = errors failed_before ++ suffix.
Proof.
  intros r.
  destruct (errors_append_only empty_server
              (pub_set_value "cn=bob,dc=example" "mail" (Some (bytes_lit "bob@x.com")))
              failed_before) as (Happend & Hskip).
  destruct Hskip as (Hnone & _ & _); [discriminate | reflexivity |].
  split; [exact Hnone|]. split; [vm_compute; reflexivity | exact Happend].
Defined.

(** ** Further properties of the module *)

Section Extras.

Context {W : Type}.
Variable rt : platform W.

(** *** Strings *)

Lemma append_cons c (a b : string) : (String c a +:+ b = String c (a +:+ b))%string.
Proof. reflexivity. Qed.

Lemma append_nil_l (b : string) : (EmptyString +:+ b = b)%string.
Proof. reflexivity. Qed.

Lemma length_append_str (a b : string) :
  String.length (a +:+ b) = (String.length a + String.length b)%nat.
Proof.
  induction a as [|c a IH]; [reflexivity|].
  rewrite append_cons. cbn [String.length]. rewrite IH. reflexivity.
Qed.

Lemma append_assoc_str (a b c : string) : ((a +:+ b) +:+ c = a +:+ (b +:+ c))%string.
Proof.
  induction a as [|x a IH]; [reflexivity|].
  rewrite !append_cons, IH. reflexivity.
Qed.

Lemma substring_append_prefix (a b : string) :
  substring 0 (String.length a) (a +:+ b) = a.
Proof.
  induction a as [|c a IH].
  - rewrite append_nil_l. destruct b; reflexivity.
  - rewrite append_cons. cbn [String.length substring]. rewrite IH. reflexivity.
Qed.

(** [(a + "'")[:-1]] is [a]. *)
Lemma drop_last_quote (a : string) : str_drop_last (a +:+ "'") = a.
Proof.
  unfold str_drop_last. rewrite length_append_str. cbn [String.length].
  replace (String.length a + 1 - 1)%nat with (String.length a) by lia.
  apply substring_append_prefix.
Qed.

(** [f"{type(exc)}"[8:-2]] is the qualified name of the class. *)
Lemma slice_class_repr (qualname : string) :
  str_slice_from_to_end 8 2 ("<class '" +:+ qualname +:+ "'>") = qualname.
Proof.
  unfold str_slice_from_to_end. rewrite !length_append_str. cbn [String.length].
  replace (8 + (String.length qualname + 2) - 2 - 8)%nat
    with (String.length qualname) by lia.
  rewrite !append_cons, append_nil_l. cbn [substring].
  apply substring_append_prefix.
Qed.

Lemma prefix_append (p u : string) :
  String.prefix p u = true <-> exists rest, u = (p +:+ rest)%string.
Proof.
  revert u. induction p as [|c p IH]; intros u.
  - split; [intros _; exists u; reflexivity|]. intros _. destruct u; reflexivity.
  - destruct u as [|c' u]; cbn [String.prefix].
    + split; [discriminate|]. intros [rest Hrest]. rewrite append_cons in Hrest.
      discriminate.
    + destruct (ascii_dec c c') as [->|Hne].
      * rewrite IH. split; intros [rest Hrest]; exists rest.
        -- rewrite append_cons, Hrest. reflexivity.
        -- rewrite append_cons in Hrest. congruence.
      * split; [discriminate|]. intros [rest Hrest]. rewrite append_cons in Hrest.
        congruence.
Qed.

(** X1. The message for an [LDAPError] names the class of the
    exception, the result code and the description, and the additional
    information when there is some: the slices [[8:-2]] and [[:-1]] cut
    exactly the wrapper of the class name and the closing quote. *)
Theorem except_msg_format qualname code desc info :
  __ldap_except_msg rt (LDAPError qualname code desc info) =
    ("'Type: " +:+ qualname +:+ "; Code: " +:+ fmt_opt pretty code +:+
     "; Msg: " +:+ fmt_opt id desc +:+
     match info with
     | Some (String _ _ as i) => "; Info: " +:+ i
     | _ => EmptyString
     end +:+ "'")%string.
Proof.
  unfold __ldap_except_msg. rewrite slice_class_repr.
  destruct info as [[|c i]|]; cbn [truthy truthy_str]; try reflexivity.
  rewrite <- !append_assoc_str, drop_last_quote, !append_assoc_str.
  reflexivity.
Qed.

(** X2. A connection counts as secure exactly when its URI starts with
    the six characters [ldaps:], in this case. *)
Theorem is_secure_iff conn :
  __is_secure conn = true <-> exists rest, _uri conn = ("ldaps:" +:+ rest)%string.
Proof. unfold __is_secure. apply prefix_append. Qed.

(** X21. A password change that reaches its action step, on a client
    object whose URI starts with [ldaps:], calls the password extension
    with the user, the current and the new password and
    [extract_newpw=True], and submits no modification; what it returns
    is never a password the server generated: when the reply holds a
    [PasswordModifyResponse], decoding fails, nothing is returned and a
    message is left in the error list.  On any other client object it
    submits one REPLACE of the [userpassword] attribute with the
    encoded new password and returns the new password as given, and
    nothing when that call raised. *)
Theorem change_pwd_branches user_dn new_pwd curr_pwd s :
  let r := ldap_change_pwd rt user_dn new_pwd curr_pwd s in
  let t := calls_of r in
  errors s = [] ->
  setup_ok t = true ->
  exists c, omap handle_of t = [c] /\
    ((exists rest, _uri c = ("ldaps:" +:+ rest)%string) ->
       omap passwd_args t = [(c, user_dn, curr_pwd, new_pwd, true)] /\
       omap modify_args t = [] /\
       (result_of r = None \/ result_of r = Some EmptyString) /\
       (forall pwd, PasswordModifyResponse pwd ∈ omap passwd_reply t ->
          result_of r = None /\ errors (state_of r) <> [])) /\
    ((~ exists rest, _uri c = ("ldaps:" +:+ rest)%string) ->
       omap modify_args t =
         [(c, user_dn, [(MOD_REPLACE, "userpassword"%string,
                         Some (str_encode rt new_pwd))])] /\
       omap passwd_args t = [] /\
       result_of r = if existsb action_failed t then None else Some new_pwd).
Proof.
  intros r t Herrs Hok. subst r t.
  destruct (ldap_change_pwd _ _ _ _ _) as [[res s'] t] eqn:Hrun.
  apply change_pwd_run in Hrun as [_ Haction].
  destruct (Haction Herrs Hok) as (c & Hc & Hbranch).
  exists c. split; [exact Hc|].
  unfold result_of, state_of, calls_of in *. cbn [fst snd] in *.
  pose proof (prefix_append "ldaps:" (_uri c)) as Hprefix.
  fold (__is_secure c) in Hprefix.
  destruct (__is_secure c).
  - split; [|intros Hno; exfalso; apply Hno, Hprefix; reflexivity].
    intros _. destruct Hbranch as (Hpasswd & Hmodify & Hres & Hlost).
    split; [exact Hpasswd|]. split; [exact Hmodify|]. split.
    + rewrite Hres. destruct (head (omap passwd_reply t)) as [[| |pwd]|]; cbn; auto.
    + intros pwd Hin. destruct (Hlost pwd Hin) as (Hnone & msg & Hmsg).
      split; [exact Hnone|]. intros Hempty. rewrite Hempty in Hmsg.
      apply elem_of_nil in Hmsg. contradiction.
  - split; [|intros _; exact Hbranch].
    intros Hsecure. apply Hprefix in Hsecure. discriminate Hsecure.
Qed.

(** *** The steps of the bracket *)

Lemma reported_none prefix (t : list event) :
  existsb raised t = false -> omap (reported rt prefix) t = [].
Proof.
  induction t as [|[T c [x|v]] t IH]; cbn; [reflexivity|discriminate|exact IH].
Qed.

(** X3. [ldap_init] writes the trace to standard output when the path
    is [None] or ["sys.stdout"], to standard error when it is
    ["sys.stderr"], and opens no file for them; any other path is
    opened in append mode and the file obtained is the one handed to
    [initialize], which is not called when the opening fails.  A trace
    level that is not an integer is replaced by 0. *)
Theorem init_trace_output server_uri trace_filepath trace_level s :
  let t := calls_of (ldap_init rt server_uri trace_filepath trace_level s) in
  omap open_args t =
    match std_stream trace_filepath with
    | Some _ => []
    | None => [(trace_filepath, "a"%string)]
    end /\
  omap init_args t =
    map (fun f => (server_uri, default 0 trace_level, f))
      (match std_stream trace_filepath with
       | Some out => [out]
       | None => omap opened_file t
       end).
Proof.
  intros t; subst t.
  destruct (ldap_init _ _ _ _ _) as [[res s'] t] eqn:Hrun.
  apply init_run in Hrun as (_ & _ & _ & _ & Hopen & Hinit & _). auto.
Qed.

(** X4. When no call of [ldap_init] raises, it returns a client object
    configured by exactly three [set_option] calls, in this order:
    protocol version 3, referrals off, the configured timeout; and the
    error list is left as it was. *)
Theorem init_configures server_uri trace_filepath trace_level s :
  let r := ldap_init rt server_uri trace_filepath trace_level s in
  existsb raised (calls_of r) = false ->
  exists c,
    result_of r = Some c /\
    omap option_args (calls_of r) = configuration rt c /\
    errors (state_of r) = errors s.
Proof.
  intros r Hok; subst r.
  destruct (ldap_init _ _ _ _ _) as [[res s'] t] eqn:Hrun.
  apply init_run in Hrun as (_ & _ & _ & Herrs & _ & _ & _ & Hconf).
  unfold result_of, state_of, calls_of in *. cbn in *.
  destruct (Hconf Hok) as (c & Hres & Hopts).
  exists c. repeat split; [assumption..|].
  rewrite Herrs, reported_none by assumption. apply app_nil_r.
Qed.

(** *** The directory operations *)

Lemma after_setup_split (t : list event) :
  exists setup, t = setup ++ after_setup t /\ forallb is_setup setup = true.
Proof.
  induction t as [|e t (setup & Heq & Hsetup)]; [exists []; auto|].
  cbn [after_setup]. destruct (is_setup e) eqn:He.
  - exists (e :: setup). cbn. rewrite He, Hsetup. split; [congruence|reflexivity].
  - exists []. auto.
Qed.

(** X8. The calls of a directory operation come in this order: the
    calls that set up and bind the client, at most one action call,
    the closing calls. *)
Theorem bracket_order op s :
  let t := calls_of (run_directory_op rt op s) in
  exists setup action cleanup,
    t = setup ++ action ++ cleanup /\
    forallb is_setup setup = true /\
    forallb is_action action = true /\
    (length action <= 1)%nat /\
    forallb is_cleanup cleanup = true.
Proof.
  intros t; subst t.
  destruct (run_directory_op _ _ _) as [[u s'] t] eqn:Hrun.
  apply directory_more in Hrun as (Hshape & _). cbn [calls_of snd].
  destruct (after_setup_split t) as (setup & Heq & Hsetup).
  unfold bracket_shape in Hshape.
  destruct (after_setup t) as [|e rest].
  - exists setup, [], []. repeat split; auto.
  - destruct (is_action e) eqn:He.
    + exists setup, [e], rest. cbn. rewrite He. repeat split; auto.
    + exists setup, [], (e :: rest). repeat split; auto.
Qed.

(** X9. A directory operation makes an action call exactly when the
    error list was empty on entry and neither the initialization nor
    the bind raised; it then makes one, after a successful bind, on the
    client object the operation itself obtained. *)
Theorem action_iff_reached op s :
  let t := calls_of (run_directory_op rt op s) in
  (List.filter is_action t <> [] <-> errors s = [] /\ setup_ok t = true) /\
  (List.filter is_action t <> [] -> existsb bound_ok t = true) /\
  (length (List.filter is_action t) <= 1)%nat /\
  Forall (fun c => omap handle_of t = [c]) (omap action_handle t).
Proof.
  intros t; subst t.
  destruct (run_directory_op _ _ _) as [[u s'] t] eqn:Hrun.
  apply directory_more in Hrun as (_ & Hhandle & Hreached & Hone & _). cbn [calls_of snd].
  assert (List.filter is_action t <> [] <-> errors s = [] /\ setup_ok t = true) as Hiff.
  { split; [intros H; apply Hreached in H as (? & ? & _); auto|].
    intros [H1 H2] Hnil. specialize (Hone H1 H2). rewrite Hnil in Hone. discriminate. }
  repeat split; try apply Hiff; auto.
  - intros H. apply Hreached in H as (_ & _ & ?). assumption.
  - destruct (List.filter is_action t) as [|e l] eqn:Hl; [cbn; lia|].
    assert (e :: l <> []) as Hne by discriminate.
    apply Hiff in Hne as [H1 H2]. rewrite (Hone H1 H2). lia.
Qed.

(** X11. [ldap_add_entry], once its action step is reached, submits
    one [add_s] for the entry with the modification list that
    [addModlist] makes of the attributes. *)
Theorem add_entry_action entry_dn attrs s :
  let t := calls_of (ldap_add_entry rt entry_dn attrs s) in
  errors s = [] ->
  setup_ok t = true ->
  exists c, omap add_args t = [(c, entry_dn, addModlist rt attrs)].
Proof.
  intros t Herrs Hok; subst t.
  destruct (ldap_add_entry _ _ _ _) as [[u s'] t] eqn:Hrun.
  apply (directory_more rt (op_add entry_dn attrs)) in Hrun as (_ & _ & _ & _ & Hargs).
  auto.
Qed.

(** X12. [ldap_modify_entry], once its action step is reached, submits
    one [modify_s] for the entry with the modification list it was
    given, unchanged. *)
Theorem modify_entry_action entry_dn mod_entry s :
  let t := calls_of (ldap_modify_entry rt entry_dn mod_entry s) in
  errors s = [] ->
  setup_ok t = true ->
  exists c, omap modify_args t = [(c, entry_dn, mod_entry)].
Proof.
  intros t Herrs Hok; subst t.
  destruct (ldap_modify_entry _ _ _ _) as [[u s'] t] eqn:Hrun.
  apply (directory_more rt (op_modify entry_dn mod_entry)) in Hrun
    as (_ & _ & _ & _ & Hargs).
  auto.
Qed.

(** X13. [ldap_delete_entry], once its action step is reached, submits
    one [delete_s] for the entry. *)
Theorem delete_entry_action entry_dn s :
  let t := calls_of (ldap_delete_entry rt entry_dn s) in
  errors s = [] ->
  setup_ok t = true ->
  exists c, omap delete_args t = [(c, entry_dn)].
Proof.
  intros t Herrs Hok; subst t.
  destruct (ldap_delete_entry _ _ _) as [[u s'] t] eqn:Hrun.
  apply (directory_more rt (op_delete entry_dn)) in Hrun as (_ & _ & _ & _ & Hargs).
  auto.
Qed.

(** X14. When [ldap_change_pwd] returns a password, the error list was
    empty on entry, no call up to and including the action step
    raised, and the only messages in the error list are those of a
    failed unbinding; called with a non-empty error list it returns
    nothing. *)
Theorem change_pwd_success user_dn new_pwd curr_pwd s pwd :
  let r := ldap_change_pwd rt user_dn new_pwd curr_pwd s in
  result_of r = Some pwd ->
  errors s = [] /\
  setup_ok (calls_of r) = true /\
  existsb action_failed (calls_of r) = false /\
  errors (state_of r) = unbind_errors rt (calls_of r).
Proof.
  intros r Hres; subst r.
  destruct (ldap_change_pwd _ _ _ _ _) as [[res s'] t] eqn:Hrun.
  apply change_pwd_more in Hrun as [Hsome _].
  cbn in Hres. apply Hsome. rewrite Hres. discriminate.
Qed.


(** *** The composed operations *)

(** X16. [ldap_set_value] first reads the current first value; when
    that leaves the error list empty it follows the rule with "present"
    read as "not null": ADD a value where there is none, DELETE for a
    null value where there is one, REPLACE by a value that differs, an
    empty byte string included, and nothing for an equal value.  The
    one modification is handed to one [ldap_modify_entry]; when the
    reading left an error, nothing more is done. *)
Theorem set_value_rule entry_dn attr value s :
  let r1 := ldap_get_value rt entry_dn attr s in
  let r := ldap_set_value rt entry_dn attr value s in
  calls_of r =
    calls_of r1 ++
      match errors (state_of r1), stated_rule attr value (result_of r1) with
      | [], Some m => calls_of (ldap_modify_entry rt entry_dn [m] (state_of r1))
      | _, _ => []
      end /\
  (length (List.filter is_write (calls_of r)) <= 1)%nat.
Proof.
  intros r1 r; subst r1 r.
  unfold ldap_set_value, bind, ret, not_errors.
  destruct (ldap_search rt entry_dn [attr] None None false s) as [[res s1] t1] eqn:Hs.
  destruct (get_value_run rt _ _ _ _ _ _ Hs) as [_ ->].
  apply search_run in Hs as (_ & Hwrite & _).
  unfold result_of, state_of, calls_of. cbn.
  destruct (errors s1) as [|msg errs]; cbn;
    [|rewrite !app_nil_r, Hwrite; split; [reflexivity | cbn; lia]].
  assert (forall m, (length (List.filter is_write
                       (t1 ++ (ldap_modify_entry rt entry_dn [m] s1).2)) <= 1)%nat)
    as Hone.
  { intros m. destruct (ldap_modify_entry rt entry_dn [m] s1) as [[u s2] t2] eqn:Hm.
    apply modify_entry_frame in Hm as (_ & _ & _ & _ & Hone).
    cbn. rewrite List.filter_app, Hwrite. exact Hone. }
  destruct (((res ≫= head) ≫= _) ≫= head) as [curr|]; destruct value as [v|];
    cbn [stated_rule].
  - case_bool_decide as Hne; destruct (decide (v = curr)) as [Heq|Heq];
      try congruence; cbn.
    + destruct (ldap_modify_entry _ _ _ _) as [[u s2] t2] eqn:Hm. cbn.
      split; [reflexivity|]. specialize (Hone (MOD_REPLACE, attr, Some v)).
      rewrite Hm in Hone. exact Hone.
    + rewrite ?app_nil_r, ?Hwrite. split; [reflexivity | cbn; lia].
  - destruct (ldap_modify_entry _ _ _ _) as [[u s2] t2] eqn:Hm. cbn.
    split; [reflexivity|]. specialize (Hone (MOD_DELETE, attr, None)).
    rewrite Hm in Hone. exact Hone.
  - destruct (ldap_modify_entry _ _ _ _) as [[u s2] t2] eqn:Hm. cbn.
    split; [reflexivity|]. specialize (Hone (MOD_ADD, attr, Some v)).
    rewrite Hm in Hone. exact Hone.
  - cbn. rewrite ?app_nil_r, ?Hwrite. split; [reflexivity | cbn; lia].
Qed.

(** X17. [ldap_get_values_lists] returns, for the first entry found,
    one item per requested attribute, in the order requested: the list
    of values of that attribute, or nothing for an attribute the entry
    lacks; it returns nothing when no entry is found. *)
Theorem get_values_lists_items entry_dn attrs s :
  let r := ldap_get_values_lists rt entry_dn attrs s in
  result_of r =
    (fun hit : search_hit => map (fun attr => hit.2 !! attr) attrs)
      <$> found_entry (calls_of r) /\
  (forall items, result_of r = Some items ->
     length items = length attrs /\
     forall i attr, attrs !! i = Some attr ->
       items !! i = Some (current_values (calls_of r) attr)).
Proof.
  intros r; subst r.
  unfold ldap_get_values_lists, bind, ret.
  destruct (ldap_search rt entry_dn attrs None None false s) as [[res s1] t1] eqn:Hs.
  apply search_run in Hs as (Hhits & _).
  assert (found_entry t1 = res ≫= head) as Hfound by (apply found_entry_search, Hhits).
  unfold result_of, calls_of, current_values.
  destruct res as [[|[dn entry] rest]|]; cbn in *; rewrite app_nil_r, Hfound; cbn;
    split; try reflexivity; try discriminate.
  intros items [= <-]. split; [apply length_map|].
  intros i attr Hi. rewrite list_lookup_fmap, Hi. reflexivity.
Qed.

Lemma first_items_spec (data : list (option (list bytes))) :
  first_items data =
    if bool_decide (Some [] ∈ data) then inl IndexError
    else inr (map (fun item => item ≫= head) data).
Proof.
  induction data as [|item data IH]; [reflexivity|].
  cbn [first_items]. rewrite IH.
  destruct item as [[|x l]|].
  - rewrite bool_decide_eq_true_2 by left. reflexivity.
  - case_bool_decide as Hin.
    + rewrite bool_decide_eq_true_2 by (right; exact Hin). reflexivity.
    + rewrite bool_decide_eq_false_2; [reflexivity|].
      intros [?|?]%elem_of_cons; [discriminate|contradiction].
  - case_bool_decide as Hin.
    + rewrite bool_decide_eq_true_2 by (right; exact Hin). reflexivity.
    + rewrite bool_decide_eq_false_2; [reflexivity|].
      intros [?|?]%elem_of_cons; [discriminate|contradiction].
Qed.

(** X18. [ldap_get_values] makes the calls of [ldap_get_values_lists]
    and returns the first value of each list, nothing for an attribute
    the entry lacks; when one of the lists is empty the exception
    [IndexError] leaves the function. *)
Theorem get_values_items entry_dn attrs s :
  let rl := ldap_get_values_lists rt entry_dn attrs s in
  let r := ldap_get_values rt entry_dn attrs s in
  state_of r = state_of rl /\
  calls_of r = calls_of rl /\
  result_of r =
    match result_of rl with
    | None => inr None
    | Some lists =>
        if bool_decide (Some [] ∈ lists) then inl IndexError
        else inr (Some (map (fun item => item ≫= head) lists))
    end.
Proof.
  intros rl r; subst rl r.
  unfold ldap_get_values, bind, ret.
  destruct (ldap_get_values_lists rt entry_dn attrs s) as [[res s1] t1].
  unfold result_of, state_of, calls_of.
  destruct res as [lists|]; cbn; [|rewrite app_nil_r; auto].
  rewrite first_items_spec. case_bool_decide; cbn; rewrite app_nil_r; auto.
Qed.


Lemma build_mod_entries_raises entry attrs n v :
  (n, v) ∈ attrs -> truthy v = true -> entry !! n = Some [] ->
  forall acc, build_mod_entries entry attrs acc = inl IndexError.
Proof.
  intros Hin Hv Hn. induction attrs as [|[n' v'] attrs IH]; intros acc.
  - apply elem_of_nil in Hin as [].
  - cbn [build_mod_entries]. apply elem_of_cons in Hin as [[= <- <-]|Hin].
    + rewrite Hv, Hn. reflexivity.
    + specialize (IH Hin).
      destruct (truthy v'); [|destruct (truthy (entry !! n')); apply IH].
      destruct (entry !! n') as [[|x l]|]; [reflexivity| |];
        case_bool_decide; apply IH.
Qed.

(** X20. When the entry found holds a listed attribute with an empty
    list of values and the new value for it is neither null nor empty,
    the exception [IndexError] leaves [ldap_modify_user]: nothing is
    written and nothing is appended to the error list. *)
Theorem modify_user_index_error user_id attrs s dn entry rest n v :
  let r1 := user_search rt user_id attrs s in
  let r := ldap_modify_user rt user_id attrs s in
  result_of r1 = Some ((dn, entry) :: rest) ->
  errors (state_of r1) = [] ->
  (n, v) ∈ attrs ->
  truthy v = true ->
  entry !! n = Some [] ->
  result_of r = inl IndexError /\
  state_of r = state_of r1 /\
  calls_of r = calls_of r1 /\
  List.filter is_write (calls_of r) = [].
Proof.
  intros r1 r Hres Herrs Hin Hv Hn; subst r1 r.
  destruct (user_search rt user_id attrs s) as [[res s1] t1] eqn:Hs.
  rewrite (modify_user_run rt _ _ _ _ _ _ Hs).
  unfold user_search in Hs. apply search_run in Hs as (_ & Hwrite & _).
  unfold result_of, state_of, calls_of in *. cbn in Hres, Herrs. subst res.
  rewrite Herrs, (build_mod_entries_raises entry attrs n v Hin Hv Hn). cbn.
  auto.
Qed.

End Extras.

(** *** Concrete runs for the further properties *)

(** A directory in which bob's entry lists the mail attribute without
    a value. *)
Definition hollow_entry : attr_dict := {[ "mail"%string := [] ]}.
Definition hollow_server : platform unit := scripted (plain_server [(bob_dn, hollow_entry)]).

Lemma init_configures_witness :
  let r := ldap_init empty_server (Some "ldap://ldap.example.com"%string)
             (TracePath "/tmp/app_ldap.log") None fresh in
  exists c,
    result_of r = Some c /\
    omap option_args (calls_of r) =
      [(c, OPT_PROTOCOL_VERSION, 3); (c, OPT_REFERRALS, 0); (c, OPT_TIMEOUT, 30)] /\
    omap open_args (calls_of r) = [(TracePath "/tmp/app_ldap.log", "a"%string)].
Proof.
  intros r.
  destruct (init_configures empty_server (Some "ldap://ldap.example.com"%string)
              (TracePath "/tmp/app_ldap.log") None fresh eq_refl)
    as (c & Hres & Hopts & _).
  exists c. split; [exact Hres|]. split; [exact Hopts|]. vm_compute. reflexivity.
Defined.

Lemma action_iff_reached_witness :
  let t := calls_of (run_directory_op empty_server (op_delete "cn=bob,dc=example") fresh) in
  List.filter is_action t <> [] /\ existsb bound_ok t = true.
Proof.
  intros t.
  destruct (action_iff_reached empty_server (op_delete "cn=bob,dc=example") fresh)
    as (Hiff & Hbound & _).
  assert (List.filter is_action t <> []) as Hne by (apply Hiff; split; reflexivity).
  split; [exact Hne | exact (Hbound Hne)].
Defined.

Lemma add_entry_action_witness :
  let attrs : attr_dict := {[ "cn"%string := [bytes_lit "bob"] ]} in
  exists c,
    omap add_args (calls_of (ldap_add_entry empty_server bob_dn attrs fresh)) =
      [(c, bob_dn, [("cn"%string, [bytes_lit "bob"])])].
Proof.
  intros attrs.
  destruct (add_entry_action empty_server bob_dn attrs fresh eq_refl eq_refl) as [c Hc].
  exists c. rewrite Hc. vm_compute. reflexivity.
Defined.

Lemma modify_entry_action_witness :
  exists c,
    omap modify_args
      (calls_of (ldap_modify_entry empty_server bob_dn
                   [(MOD_DELETE, "mail"%string, None)] fresh)) =
      [(c, bob_dn, [(MOD_DELETE, "mail"%string, None)])].
Proof.
  exact (modify_entry_action empty_server bob_dn [(MOD_DELETE, "mail"%string, None)] fresh
           eq_refl eq_refl).
Defined.

Lemma delete_entry_action_witness :
  exists c,
    omap delete_args (calls_of (ldap_delete_entry empty_server bob_dn fresh)) =
      [(c, bob_dn)].
Proof.
  exact (delete_entry_action empty_server bob_dn fresh eq_refl eq_refl).
Defined.

Lemma change_pwd_success_witness :
  let r := ldap_change_pwd empty_server "uid=alice,dc=example" "newpass123" None fresh in
  setup_ok (calls_of r) = true /\ errors (state_of r) = [].
Proof.
  intros r.
  destruct (change_pwd_success empty_server "uid=alice,dc=example" "newpass123" None fresh
              "newpass123" eq_refl) as (_ & Hok & _ & Herrs).
  split; [exact Hok|]. fold r in Herrs. rewrite Herrs. vm_compute. reflexivity.
Defined.

Lemma change_pwd_branches_witness :
  let secure := ldap_change_pwd tls_server "uid=alice,dc=example" "newpass123" None fresh in
  let plain := ldap_change_pwd empty_server "uid=alice,dc=example" "newpass123" None fresh in
  result_of secure = None /\
  errors (state_of secure) <> [] /\
  (omap modify_args (calls_of plain)).*2 =
    [[(MOD_REPLACE, "userpassword"%string, Some (bytes_lit "newpass123"))]] /\
  result_of plain = Some "newpass123"%string.
Proof.
  intros secure plain.
  destruct (change_pwd_branches tls_server "uid=alice,dc=example" "newpass123" None fresh
              eq_refl eq_refl) as (c & Hc & Hsecure & _).
  destruct (change_pwd_branches empty_server "uid=alice,dc=example" "newpass123" None fresh
              eq_refl eq_refl) as (c' & Hc' & _ & Hplain).
  assert (_uri c = "ldaps://ldap.example.com"%string) as Huri
    by (vm_compute in Hc; injection Hc as <-; reflexivity).
  assert (_uri c' = "ldap://ldap.example.com"%string) as Huri'
    by (vm_compute in Hc'; injection Hc' as <-; reflexivity).
  destruct Hsecure as (_ & _ & _ & Hlost).
  { exists "//ldap.example.com"%string. exact Huri. }
  destruct (Hlost (bytes_lit "s3rv3r-made")) as (Hnone & Hmsg).
  { vm_compute. left. }
  destruct Hplain as (Hmodify & _ & Hres).
  { intros [rest Hrest]. rewrite Huri' in Hrest. discriminate Hrest. }
  split; [exact Hnone|]. split; [exact Hmsg|].
  fold plain in Hmodify, Hres. rewrite Hmodify, Hres.
  split; vm_compute; reflexivity.
Defined.

Lemma get_values_lists_items_witness :
  let r := ldap_get_values_lists bob_server bob_dn ["mail"%string; "cn"%string] fresh in
  result_of r = Some [Some [bytes_lit "bob@old.example.com"]; None] /\
  forall items, result_of r = Some items -> length items = 2%nat.
Proof.
  intros r.
  destruct (get_values_lists_items bob_server bob_dn ["mail"%string; "cn"%string] fresh)
    as [_ Hitems].
  split; [vm_compute; reflexivity|].
  intros items Hres. exact (proj1 (Hitems items Hres)).
Defined.


Lemma modify_user_index_error_witness :
  let r := ldap_modify_user hollow_server "bob"
             [("mail"%string, Some (bytes_lit "bob@new.example.com"))] fresh in
  result_of r = inl IndexError /\ List.filter is_write (calls_of r) = [].
Proof.
  intros r.
  destruct (modify_user_index_error hollow_server "bob"
              [("mail"%string, Some (bytes_lit "bob@new.example.com"))] fresh
              bob_dn hollow_entry [] "mail" (Some (bytes_lit "bob@new.example.com"))
              eq_refl eq_refl ltac:(left) eq_refl eq_refl)
    as (Hres & _ & _ & Hwrite).
  split; assumption.
Defined.

(** ** Runs in which an exception may leave the operation *)

Section EscapingRuns.

Context {W : Type}.
Variable rt : platform W.
Variable lib_any : forall T, ldap_call T -> W -> (Escaping.exc + T) * W.

Lemma except_msg_cases x :
  (Escaping.reportable x = true /\
   exists msg, Escaping.__ldap_except_msg rt x = inr msg) \/
  (Escaping.reportable x = false /\
   exists e, Escaping.__ldap_except_msg rt x = inl e).
Proof.
  destruct x as [qualname [result desc info| |]|cls msg]; cbn;
    first [left; split; [reflexivity|eexists; reflexivity]
          |right; split; [reflexivity|eexists; reflexivity]].
Qed.

Lemma except_msg_of_exn e :
  Escaping.__ldap_except_msg rt (Escaping.of_exn e) = inr (__ldap_except_msg rt e).
Proof. destruct e; reflexivity. Qed.

Lemma open_trace_out_any d s :
  Escaping.open_outcome d s (Escaping.open_trace_out lib_any d s).
Proof.
  unfold Escaping.open_trace_out, Escaping.call, Escaping.ret.
  destruct d as [|str|p]; try constructor.
  - repeat case_decide; try constructor;
      destruct (lib_any _ _ _) as [[e|f] w]; constructor.
  - destruct (lib_any _ _ _) as [[e|f] w]; constructor.
Qed.

Ltac any_open H :=
  match type of H with
  | context [Escaping.open_trace_out ?l ?d ?s] =>
      let Ho := fresh "Hopen" in
      pose proof (open_trace_out_any d s) as Ho;
      destruct (Escaping.open_trace_out l d s) as [[? ?] ?];
      inversion Ho; subst; clear Ho
  end.

Ltac any_except H :=
  first
    [ rewrite except_msg_of_exn in H
    | match type of H with
      | context [Escaping.__ldap_except_msg ?p ?x] =>
          let Hr := fresh "Hrep" in
          let Hm := fresh "Hmsg" in
          destruct (except_msg_cases x) as [[Hr [?msg Hm]]|[Hr [?esc Hm]]];
          rewrite Hm in H
      end ].

Ltac any_lib H :=
  match type of H with
  | context [lib_any ?T ?c ?w] =>
      destruct (lib_any T c w) as [[?exc|?val] ?w]
  end.

Ltac any_unfold H :=
  cbv beta iota zeta delta
    [Escaping.run_directory_op
     Escaping.ldap_search Escaping.ldap_add_entry Escaping.ldap_modify_entry
     Escaping.ldap_delete_entry Escaping.ldap_change_pwd
     Escaping.ldap_init_default Escaping.ldap_init Escaping.ldap_bind Escaping.ldap_unbind
     Escaping.bind_if_obtained Escaping.unbind_if_bound
     Escaping.method Escaping.except_append Escaping.except_unit
     Escaping.try_bind Escaping.bind Escaping.ret Escaping.raise Escaping.call
     Escaping.errors_append Escaping.not_errors
     Escaping.result_of Escaping.state_of Escaping.calls_of
     world errors fst snd negb resp_decode
     truthy truthy_list truthy_optional truthy_str] in H;
  cbn [app] in H.

Ltac any_pure H :=
  first
    [ match goal with
      | v : (unit * passwd_value)%type |- _ => destruct v as [[] [| |?genPasswd]]
      end
    | match type of H with
      | context [__is_secure ?c] => destruct (__is_secure c) eqn:?
      | context [bool_decide ?P] => destruct (bool_decide P) eqn:?
      end ].

Ltac run_any H :=
  any_unfold H;
  repeat (first [any_open H | any_lib H | any_except H | any_pure H]; any_unfold H);
  simplify_eq H; intros; subst; clear H.

Ltac settle :=
  cbn;
  repeat match goal with
         | H : Escaping.reportable _ = _ |- _ => rewrite H
         | H : Escaping.__ldap_except_msg _ _ = _ |- _ => rewrite H
         | H : bool_decide _ = _ |- _ => rewrite H
         end;
  cbn.

Ltac close_any :=
  settle; repeat split;
  first
    [ reflexivity
    | lia
    | intros; congruence
    | rewrite ?app_nil_r; reflexivity
    | rewrite ?length_app; cbn; lia
    | eexists; reflexivity
    | solve [repeat constructor] ].

(** What [ldap_bind] does. *)
Lemma bind_any_run ldap_client bind_dn bind_pwd s res s' t :
  Escaping.ldap_bind rt lib_any ldap_client bind_dn bind_pwd s = (res, s', t) ->
  omap Escaping.bind_args t = [(ldap_client, bind_dn, bind_pwd)] /\
  length t = 1%nat /\
  res = match head (omap (Escaping.escape_of rt) t) with
        | Some e => inl e
        | None => inr (negb (existsb Escaping.raised t))
        end /\
  errors s' =
    errors s ++ omap (Escaping.reported rt "Error binding with the LDAP server: ") t.
Proof.
  intros Hrun. destruct s as [w errs]. run_any Hrun.
  all: close_any.
Qed.

(** What [ldap_unbind] does. *)
Lemma unbind_any_run ldap_client s res s' t :
  Escaping.ldap_unbind rt lib_any ldap_client s = (res, s', t) ->
  omap Escaping.unbind_arg t = [ldap_client] /\
  forallb Escaping.is_cleanup t = true /\
  omap Escaping.close_arg t =
    (if negb (existsb Escaping.raised (List.filter Escaping.is_unbind t)) &&
        bool_decide (name (_trace_file ldap_client) ∉ ["<stdout>"; "<stderr>"]%string)
     then [_trace_file ldap_client] else []) /\
  res = match head (omap (Escaping.escape_of rt) t) with
        | Some e => inl e
        | None => inr tt
        end /\
  errors s' =
    errors s ++ omap (Escaping.reported rt "Error unbinding with the LDAP server: ") t.
Proof.
  intros Hrun. destruct s as [w errs]. run_any Hrun.
  all: close_any.
Qed.

(** What [ldap_init] does. *)
Lemma init_any_run server_uri trace_filepath trace_level s res s' t :
  Escaping.ldap_init rt lib_any server_uri trace_filepath trace_level s = (res, s', t) ->
  res = match head (omap (Escaping.escape_of rt) t) with
        | Some e => inl e
        | None => inr (head (omap Escaping.handle_of t))
        end /\
  (length (List.filter Escaping.raised t) <= 1)%nat /\
  Escaping.all_reportable (removelast t) = true /\
  errors s' =
    errors s ++ omap (Escaping.reported rt "Error initializing the LDAP client: ") t /\
  Forall (fun x => head (omap Escaping.handle_of t) = Some x.1.1)
    (omap Escaping.option_args t).
Proof.
  intros Hrun. destruct s as [w errs]. run_any Hrun.
  all: close_any.
Qed.

(** What every directory operation does. *)
Lemma directory_any_run op s res s' t :
  Escaping.run_directory_op rt lib_any op s = (res, s', t) ->
  res = match head (omap (Escaping.escape_of rt) t) with
        | Some e => inl e
        | None => inr tt
        end /\
  Escaping.all_reportable (removelast t) = true /\
  (Escaping.all_reportable t = true ->
     omap Escaping.unbind_arg t =
       (if existsb Escaping.bound_ok t then omap Escaping.handle_of t else [])) /\
  (existsb (fun e => Escaping.escaping e && negb (Escaping.is_cleanup e)) t = true ->
     omap Escaping.unbind_arg t = []) /\
  (length (omap Escaping.handle_of t) <= 1)%nat /\
  (length (List.filter Escaping.is_bind t) <= length (omap Escaping.handle_of t))%nat /\
  (length (List.filter Escaping.is_cleanup t) <= 2 * length (omap Escaping.unbind_arg t))%nat /\
  (changes_password op = false ->
     length (errors s') =
       (length (errors s) + length (List.filter Escaping.failed t))%nat).
Proof.
  intros Hrun. destruct s as [w errs].
  destruct op; destruct errs as [|msg0 errs];
    try destruct curr_pwd as [[|? ?]|].
  all: run_any Hrun.
  all: close_any.
Qed.

(** Whether something leaves the [except] clauses of a run. *)
Lemma escape_of_none (t : list Escaping.any_event) :
  Escaping.all_reportable t = true -> omap (Escaping.escape_of rt) t = [].
Proof.
  induction t as [|[T c [x|v]] t IH]; cbn; [reflexivity| |exact IH].
  destruct (except_msg_cases x) as [[Hrep [msg Hmsg]]|[Hrep [e Hmsg]]];
    rewrite Hrep, Hmsg; cbn; [exact IH|discriminate].
Qed.

Lemma escape_of_some (t : list Escaping.any_event) :
  Escaping.all_reportable t = false ->
  exists e, head (omap (Escaping.escape_of rt) t) = Some e.
Proof.
  induction t as [|[T c [x|v]] t IH]; cbn; [discriminate| |exact IH].
  destruct (except_msg_cases x) as [[Hrep [msg Hmsg]]|[Hrep [e Hmsg]]];
    rewrite Hrep, Hmsg; cbn; [exact IH|].
  intros _. exists e. reflexivity.
Qed.

(** *** The steps of the bracket *)

(** X5. [ldap_init] raises when a call of it raised an exception no
    message can be built from: the exception of the [except] clause
    leaves the function and nothing is appended for that call.
    Otherwise it returns a client object exactly when [initialize]
    returned one, also when configuring it failed afterwards.  At most
    one of its calls raises, the message of a reportable exception is
    what is appended to the error list, and every [set_option] call is
    made on the client object [initialize] returned. *)
Theorem init_result server_uri trace_filepath trace_level s :
  let r := Escaping.ldap_init rt lib_any server_uri trace_filepath trace_level s in
  let t := Escaping.calls_of r in
  Escaping.result_of r =
    match head (omap (Escaping.escape_of rt) t) with
    | Some e => inl e
    | None => inr (head (omap Escaping.handle_of t))
    end /\
  (length (List.filter Escaping.raised t) <= 1)%nat /\
  errors (Escaping.state_of r) =
    errors s ++ omap (Escaping.reported rt "Error initializing the LDAP client: ") t /\
  Forall (fun x => head (omap Escaping.handle_of t) = Some x.1.1)
    (omap Escaping.option_args t).
Proof.
  intros r t; subst r t.
  destruct (Escaping.ldap_init _ _ _ _ _ _) as [[res s'] t] eqn:Hrun.
  apply init_any_run in Hrun as (? & ? & _ & ? & ?). auto.
Qed.

(** X6. [ldap_bind] makes one [simple_bind_s] call with the credentials
    given.  When the call raises an exception no message can be built
    from, [ldap_bind] raises and appends nothing; otherwise it returns
    whether the call succeeded, and appends a message exactly when it
    returns [False]. *)
Theorem bind_result ldap_client bind_dn bind_pwd s :
  let r := Escaping.ldap_bind rt lib_any ldap_client bind_dn bind_pwd s in
  let t := Escaping.calls_of r in
  omap Escaping.bind_args t = [(ldap_client, bind_dn, bind_pwd)] /\
  length t = 1%nat /\
  Escaping.result_of r =
    match head (omap (Escaping.escape_of rt) t) with
    | Some e => inl e
    | None => inr (negb (existsb Escaping.raised t))
    end /\
  errors (Escaping.state_of r) =
    errors s ++ omap (Escaping.reported rt "Error binding with the LDAP server: ") t.
Proof.
  intros r t; subst r t.
  destruct (Escaping.ldap_bind _ _ _ _ _ _) as [[res s'] t] eqn:Hrun.
  apply bind_any_run in Hrun. exact Hrun.
Qed.

(** X7. [ldap_unbind] unbinds the client object and then closes its
    trace file, unless the file is standard output or standard error;
    when [unbind_s] raises, the trace file is not closed.  It raises
    when the exception of a call is one no message can be built from,
    and appends nothing then; otherwise what it appends to the error
    list is the message of the call that raised. *)
Theorem unbind_closes_trace_file ldap_client s :
  let r := Escaping.ldap_unbind rt lib_any ldap_client s in
  let t := Escaping.calls_of r in
  omap Escaping.unbind_arg t = [ldap_client] /\
  forallb Escaping.is_cleanup t = true /\
  omap Escaping.close_arg t =
    (if negb (existsb Escaping.raised (List.filter Escaping.is_unbind t)) &&
        bool_decide (name (_trace_file ldap_client) ∉ ["<stdout>"; "<stderr>"]%string)
     then [_trace_file ldap_client] else []) /\
  Escaping.result_of r =
    match head (omap (Escaping.escape_of rt) t) with
    | Some e => inl e
    | None => inr tt
    end /\
  errors (Escaping.state_of r) =
    errors s ++ omap (Escaping.reported rt "Error unbinding with the LDAP server: ") t.
Proof.
  intros r t; subst r t.
  destruct (Escaping.ldap_unbind _ _ _ _) as [[res s'] t] eqn:Hrun.
  apply unbind_any_run in Hrun. exact Hrun.
Qed.

(** *** The directory operations *)

(** C4 (as amended). In a run of a directory operation in which every
    exception the library raises is one a message can be built from,
    the operation returns, and it unbinds exactly when its bind
    succeeded, on the client object it obtained, whatever the action
    step does.  In every run it obtains at most one client object and
    binds only a client object it obtained, so that a failure before a
    client object exists, or a failed bind, is followed by no
    unbinding; the trace file is closed only after an unbinding. *)
Theorem unbind_iff_bound op s :
  let r := Escaping.run_directory_op rt lib_any op s in
  let t := Escaping.calls_of r in
  (Escaping.all_reportable t = true ->
     Escaping.result_of r = inr tt /\
     omap Escaping.unbind_arg t =
       (if existsb Escaping.bound_ok t then omap Escaping.handle_of t else [])) /\
  (length (omap Escaping.handle_of t) <= 1)%nat /\
  (length (List.filter Escaping.is_bind t) <= length (omap Escaping.handle_of t))%nat /\
  (length (List.filter Escaping.is_cleanup t)
   <= 2 * length (omap Escaping.unbind_arg t))%nat.
Proof.
  intros r t; subst r t.
  destruct (Escaping.run_directory_op _ _ _ _) as [[res s'] t] eqn:Hrun.
  apply directory_any_run in Hrun
    as (Hres & _ & Hunbind & _ & Hone & Hbind & Hclean & _).
  cbn. split; [|auto].
  intros Hall. split; [|exact (Hunbind Hall)].
  rewrite Hres, (escape_of_none _ Hall). reflexivity.
Qed.

(** X10. In adding, modifying, deleting and searching, every call that
    raises an exception a message can be built from is reported once,
    and nothing else is: the error list grows by the number of those
    calls, also in a run that an exception leaves. *)
Theorem failures_reported_once op s :
  let r := Escaping.run_directory_op rt lib_any op s in
  changes_password op = false ->
  length (errors (Escaping.state_of r)) =
    (length (errors s) + length (List.filter Escaping.failed (Escaping.calls_of r)))%nat.
Proof.
  intros r Hop; subst r.
  destruct (Escaping.run_directory_op _ _ _ _) as [[res s'] t] eqn:Hrun.
  apply directory_any_run in Hrun as (_ & _ & _ & _ & _ & _ & _ & Hcount). auto.
Qed.

(** X22. A directory operation raises exactly when one of its calls
    raised an exception no message can be built from; that call is the
    last one of the run, and when it is not a call of the closing step
    the run holds no unbinding, whether the bind had succeeded or
    not. *)
Theorem unreportable_exception_escapes op s :
  let r := Escaping.run_directory_op rt lib_any op s in
  let t := Escaping.calls_of r in
  ((exists e, Escaping.result_of r = inl e) <-> Escaping.all_reportable t = false) /\
  Escaping.all_reportable (removelast t) = true /\
  (existsb (fun e => Escaping.escaping e && negb (Escaping.is_cleanup e)) t = true ->
     omap Escaping.unbind_arg t = []).
Proof.
  intros r t; subst r t.
  destruct (Escaping.run_directory_op _ _ _ _) as [[res s'] t] eqn:Hrun.
  apply directory_any_run in Hrun as (Hres & Hlast & _ & Hskip & _).
  unfold Escaping.result_of, Escaping.calls_of. cbn [fst snd]. split; [|auto].
  destruct (Escaping.all_reportable t) eqn:Hall.
  - rewrite (escape_of_none _ Hall) in Hres. cbn in Hres. subst res.
    split; [intros [e He]; discriminate He|intros Hno; discriminate Hno].
  - destruct (escape_of_some _ Hall) as [e He]. rewrite He in Hres.
    split; [reflexivity|]. intros _. exists e. exact Hres.
Qed.

End EscapingRuns.

(** *** Concrete runs in which an exception may leave the operation *)

(** A search whose [search_s] call is refused with an exception that
    carries its dictionary: it is reported, and the client is unbound. *)
Lemma unbind_iff_bound_witness :
  let sc := Escaping.mkScript None (Some Escaping.timeout) None in
  let r := Escaping.run_directory_op empty_server (Escaping.scripted_lib sc)
             (op_search "dc=example,dc=com" ["mail"%string] None None false) fresh in
  Escaping.result_of r = inr tt /\
  length (omap Escaping.unbind_arg (Escaping.calls_of r)) = 1%nat /\
  length (errors (Escaping.state_of r)) = 1%nat.
Proof.
  intros sc r.
  destruct (unbind_iff_bound empty_server (Escaping.scripted_lib sc)
              (op_search "dc=example,dc=com" ["mail"%string] None None false) fresh)
    as (Hunbind & _).
  destruct (Hunbind eq_refl) as (Hres & Hargs).
  split; [exact Hres|]. fold r in Hargs. rewrite Hargs.
  split; vm_compute; reflexivity.
Defined.

(** The same search, refused with a [TIMEOUT] raised without arguments:
    the bind had succeeded, yet the operation raises [IndexError],
    appends nothing and leaves the client bound. *)
Lemma unreportable_exception_escapes_witness :
  let sc := Escaping.mkScript None (Some Escaping.bare_timeout) None in
  let r := Escaping.run_directory_op empty_server (Escaping.scripted_lib sc)
             (op_search "dc=example,dc=com" ["mail"%string] None None false) fresh in
  let t := Escaping.calls_of r in
  existsb Escaping.bound_ok t = true /\
  omap Escaping.unbind_arg t = [] /\
  Escaping.result_of r = inl (PyError "IndexError" "tuple index out of range") /\
  errors (Escaping.state_of r) = [].
Proof.
  intros sc r t.
  destruct (unreportable_exception_escapes empty_server (Escaping.scripted_lib sc)
              (op_search "dc=example,dc=com" ["mail"%string] None None false) fresh)
    as (_ & _ & Hskip).
  split; [vm_compute; reflexivity|].
  split; [exact (Hskip eq_refl)|].
  split; vm_compute; reflexivity.
Defined.

Lemma failures_reported_once_witness :
  let sc := Escaping.mkScript (Some Escaping.timeout) None None in
  let r := Escaping.run_directory_op empty_server (Escaping.scripted_lib sc)
             (op_delete "cn=bob,dc=example") fresh in
  length (errors (Escaping.state_of r)) = 1%nat.
Proof.
  intros sc r. unfold r.
  rewrite (failures_reported_once empty_server (Escaping.scripted_lib sc)
             (op_delete "cn=bob,dc=example") fresh eq_refl).
  vm_compute. reflexivity.
Defined.
